(** * LightDetectionManager: a shallow embedding and its properties

    The development embeds the actor [ALightDetectionManager]
    (LightDetectionManager.h / LightDetectionManager.cpp): the tick driver
    [Tick], the initialisation [BeginPlay], the orchestrator
    [UpdateDetection] and the four per-category evaluators
    [CheckPointLights], [CheckSpotLights], [CheckRectLights] and
    [CheckDirectionalLight], together with the frustum construction of rect
    lights.

    Modelling choices.
    - The engine's [float] is modelled by [float] below: exact rational
      arithmetic extended with the IEEE special values (not-a-number and the
      two infinities).  Division by zero and comparisons with not-a-number
      behave as in IEEE-754; rounding and the sign of zero are not modelled.
      Statements over [float] are either symbolic in the operations or keep
      under rounding; where the rounding of an addition decides a
      statement, module [Binary32] embeds the code once more over the
      binary32 format.
    - Everything the engine provides (ray casts, libm, the vector helpers of
      FVector that need a square root or a sine) is a field of the record
      [Host]; every theorem is stated for an arbitrary host.  Module
      [RefHost] gives one concrete host, used to run the code on concrete
      scenes.
    - Debug drawing and on-screen messages have no effect on the manager's
      state and are left out.  One of them, in the blocked-ray branch of
      [CheckSpotLights], reads the name of the actor that was hit: the
      development covers the runs in which every blocking hit carries an
      actor, and states nothing about a hit without one. *)

From Stdlib Require Import QArith Qreduction ZArith List Bool String Lia Lqa.
From Stdlib Require Import Permutation SpecFloat.
Import ListNotations.
Open Scope Q_scope.

(** ** The scalar type *)

Inductive float : Type :=
| NaN
| PInf
| NInf
| Fin (q : Q).

Definition signed_inf (c : comparison) : float :=
  match c with
  | Gt => PInf
  | Lt => NInf
  | Eq => NaN
  end.

Definition fneg (x : float) : float :=
  match x with
  | NaN => NaN
  | PInf => NInf
  | NInf => PInf
  | Fin q => Fin (Qred (- q))
  end.

Definition fadd (x y : float) : float :=
  match x, y with
  | NaN, _ | _, NaN => NaN
  | PInf, NInf | NInf, PInf => NaN
  | PInf, _ | _, PInf => PInf
  | NInf, _ | _, NInf => NInf
  | Fin a, Fin b => Fin (Qred (a + b))
  end.

Definition fsub (x y : float) : float :=
  match x, y with
  | NaN, _ | _, NaN => NaN
  | PInf, PInf | NInf, NInf => NaN
  | PInf, _ | _, NInf => PInf
  | NInf, _ | _, PInf => NInf
  | Fin a, Fin b => Fin (Qred (a - b))
  end.

Definition fmul (x y : float) : float :=
  match x, y with
  | NaN, _ | _, NaN => NaN
  | Fin a, Fin b => Fin (Qred (a * b))
  | PInf, PInf | NInf, NInf => PInf
  | PInf, NInf | NInf, PInf => NInf
  | PInf, Fin q | Fin q, PInf => signed_inf (q ?= 0)
  | NInf, Fin q | Fin q, NInf => signed_inf (CompOpp (q ?= 0))
  end.

(** [x / 0] is an infinity of the sign of [x], and [0 / 0] is not a number. *)
Definition fdiv (x y : float) : float :=
  match x, y with
  | NaN, _ | _, NaN => NaN
  | Fin a, Fin b =>
      if Qeq_bool b 0 then signed_inf (a ?= 0) else Fin (Qred (a / b))
  | Fin _, PInf | Fin _, NInf => Fin 0
  | PInf, Fin b => match b ?= 0 with Lt => NInf | _ => PInf end
  | NInf, Fin b => match b ?= 0 with Lt => PInf | _ => NInf end
  | _, _ => NaN
  end.

(** Comparisons: every comparison with not-a-number is false. *)
Definition flt (x y : float) : bool :=
  match x, y with
  | NaN, _ | _, NaN => false
  | Fin a, Fin b => negb (Qle_bool b a)
  | NInf, NInf | PInf, _ | _, NInf => false
  | NInf, _ | _, PInf => true
  end.

Definition fle (x y : float) : bool :=
  match x, y with
  | NaN, _ | _, NaN => false
  | Fin a, Fin b => Qle_bool a b
  | NInf, _ | _, PInf => true
  | PInf, _ | _, NInf => false
  end.

Definition fgt (x y : float) : bool := flt y x.

(** The engine's macro [PI], as its literal is written. *)
Definition PI : float := Fin 3.1415926535897932.

(** ** Vectors and planes *)

Record FVector : Type := mkFVector { vX : float; vY : float; vZ : float }.

Definition ZeroVector : FVector := mkFVector (Fin 0) (Fin 0) (Fin 0).
Definition UpVector : FVector := mkFVector (Fin 0) (Fin 0) (Fin 1).
Definition DownVector : FVector := mkFVector (Fin 0) (Fin 0) (Fin (-1)).

Definition vadd (a b : FVector) : FVector :=
  mkFVector (fadd (vX a) (vX b)) (fadd (vY a) (vY b)) (fadd (vZ a) (vZ b)).

Definition vsub (a b : FVector) : FVector :=
  mkFVector (fsub (vX a) (vX b)) (fsub (vY a) (vY b)) (fsub (vZ a) (vZ b)).

Definition vscale (a : FVector) (s : float) : FVector :=
  mkFVector (fmul (vX a) s) (fmul (vY a) s) (fmul (vZ a) s).

Definition vneg (a : FVector) : FVector :=
  mkFVector (fneg (vX a)) (fneg (vY a)) (fneg (vZ a)).

Definition DotProduct (a b : FVector) : float :=
  fadd (fadd (fmul (vX a) (vX b)) (fmul (vY a) (vY b))) (fmul (vZ a) (vZ b)).

Definition CrossProduct (a b : FVector) : FVector :=
  mkFVector
    (fsub (fmul (vY a) (vZ b)) (fmul (vZ a) (vY b)))
    (fsub (fmul (vZ a) (vX b)) (fmul (vX a) (vZ b)))
    (fsub (fmul (vX a) (vY b)) (fmul (vY a) (vX b))).

Definition SizeSquared (a : FVector) : float := DotProduct a a.

Definition DistSquared (a b : FVector) : float :=
  let dx := fsub (vX b) (vX a) in
  let dy := fsub (vY b) (vY a) in
  let dz := fsub (vZ b) (vZ a) in
  fadd (fadd (fmul dx dx) (fmul dy dy)) (fmul dz dz).

(** [FPlane(Normal, W)]: the plane [Normal . p = W]. *)
Record FPlane : Type := mkFPlane { pNormal : FVector; pW : float }.

Definition FPlane_default : FPlane := mkFPlane ZeroVector (Fin 0).

Definition Flip (p : FPlane) : FPlane :=
  mkFPlane (vneg (pNormal p)) (fneg (pW p)).

Definition GetNormal (p : FPlane) : FVector := pNormal p.

(** [FPlane::PointPlaneDist(Point, PlaneBase, PlaneNormal)]. *)
Definition PointPlaneDist (Point PlaneBase PlaneNormal : FVector) : float :=
  DotProduct (vsub Point PlaneBase) PlaneNormal.

(** ** The host: what the engine provides *)

Inductive ECollisionChannel : Type :=
| ECC_Visibility
| ECC_GameTraceChannel5.

Record FHitResult : Type := mkFHitResult { Location : FVector }.

(** [LineTraceSingleByChannel] answers [Some hit] when the segment is blocked
    and [None] when it is free.  [Sqrt], [Acos], [Cos] and [Sin] stand for
    [FMath::Sqrt], [FMath::Acos], [FMath::Cos] and [sinf]; [GetSafeNormal],
    [Normalize] and [RotateAngleAxis] are the methods of FVector of these
    names.  [Uninitialized] is the content of a local FVector that is declared
    without an initialiser and read before any assignment. *)
Record Host : Type := mkHost {
  LineTraceSingleByChannel :
    FVector -> FVector -> ECollisionChannel -> option FHitResult;
  Sqrt : float -> float;
  Acos : float -> float;
  Cos : float -> float;
  Sin : float -> float;
  GetSafeNormal : FVector -> FVector;
  Normalize : FVector -> FVector;
  RotateAngleAxis : FVector -> float -> FVector -> FVector;
  Uninitialized : FVector
}.

Definition Size (H : Host) (a : FVector) : float := Sqrt H (SizeSquared a).

Definition Distance (H : Host) (a b : FVector) : float :=
  Sqrt H (DistSquared a b).

(** ** Scene objects *)

Module UPointLightComponent.
Record t : Type := mk {
  IsVisible : bool;
  Intensity : float;
  GetLightPosition : FVector;
  AttenuationRadius : float
}.
End UPointLightComponent.

Module USpotLightComponent.
Record t : Type := mk {
  IsVisible : bool;
  Intensity : float;
  GetLightPosition : FVector;
  GetForwardVector : FVector;
  AttenuationRadius : float;
  OuterConeAngle : float
}.
End USpotLightComponent.

Module URectLightComponent.
Record t : Type := mk {
  IsVisible : bool;
  Intensity : float;
  GetLightPosition : FVector;
  GetForwardVector : FVector;
  GetRightVector : FVector;
  GetUpVector : FVector;
  AttenuationRadius : float;
  SourceWidth : float;
  SourceHeight : float;
  BarnDoorLength : float;
  BarnDoorAngle : float
}.
End URectLightComponent.

Module UDirectionalLightComponent.
Record t : Type := mk {
  IsVisible : bool;
  Intensity : float;
  GetForwardVector : FVector
}.

Definition set_Intensity (l : t) (i : float) : t :=
  mk (IsVisible l) i (GetForwardVector l).
End UDirectionalLightComponent.

Record APlanet_NineMPCharacter : Type :=
  mkCharacter { GetActorLocation : FVector }.

Record AActor : Type := mkActor {
  Tags : list string;
  PointLightComponent : option UPointLightComponent.t;
  SpotLightComponent : option USpotLightComponent.t
}.

Definition ActorHasTag (a : AActor) (tag : string) : bool :=
  existsb (String.eqb tag) (Tags a).

(** What [BeginPlay] reads from the world: the player character after the
    [dynamic_cast] (absent when there is none or the cast fails) and the
    actors in iteration order. *)
Record Scene : Type := mkScene {
  GetPlayerCharacter : option APlanet_NineMPCharacter;
  Actors : list AActor
}.

(** ** TArray

    [operator[]] of TArray checks its index.  The arrays of this program
    are allocated once, with 8 and with 4 entries, and are only indexed by
    constants below these sizes; [TArray_set] and the readers [pt] and
    [plane] below are used within these bounds, where they are the
    assignment to and the read of an entry. *)

Fixpoint TArray_set {A : Type} (l : list A) (i : nat) (v : A) : list A :=
  match l, i with
  | [], _ => []
  | _ :: tl, O => v :: tl
  | hd :: tl, S j => hd :: TArray_set tl j v
  end.

Definition Init {A : Type} (v : A) (n : nat) : list A := repeat v n.

(** ** RectLightWrapper *)

Record RectLightWrapper : Type := mkRectLightWrapper {
  RectLight : URectLightComponent.t;
  FrustumPoints : list FVector;
  BoundingPlanes : list FPlane
}.

(** The constructor of the struct: 8 zero points and 4 default planes. *)
Definition RectLightWrapper_new (rectLight : URectLightComponent.t)
  : RectLightWrapper :=
  mkRectLightWrapper rectLight (Init ZeroVector 8) (Init FPlane_default 4).

Definition pt (w : RectLightWrapper) (i : nat) : FVector :=
  nth i (FrustumPoints w) ZeroVector.

Definition plane (w : RectLightWrapper) (i : nat) : FPlane :=
  nth i (BoundingPlanes w) FPlane_default.

Definition set_pt (w : RectLightWrapper) (i : nat) (v : FVector)
  : RectLightWrapper :=
  mkRectLightWrapper (RectLight w) (TArray_set (FrustumPoints w) i v)
    (BoundingPlanes w).

Definition set_plane (w : RectLightWrapper) (i : nat) (p : FPlane)
  : RectLightWrapper :=
  mkRectLightWrapper (RectLight w) (FrustumPoints w)
    (TArray_set (BoundingPlanes w) i p).

(** ** The manager *)

Record ALightDetectionManager : Type := mkManager {
  Player : option APlanet_NineMPCharacter;
  PointLights : list UPointLightComponent.t;
  SpotLights : list USpotLightComponent.t;
  RectLights : list RectLightWrapper;
  MainDirectionalLight : option UDirectionalLightComponent.t;
  IlluminanceTotal : float;
  UpdateFrequency : float;
  UpdateTimer : float;
  ForgivenessBuffer : float
}.

Definition set_IlluminanceTotal (m : ALightDetectionManager) (v : float)
  : ALightDetectionManager :=
  mkManager (Player m) (PointLights m) (SpotLights m) (RectLights m)
    (MainDirectionalLight m) v (UpdateFrequency m) (UpdateTimer m)
    (ForgivenessBuffer m).

Definition set_UpdateTimer (m : ALightDetectionManager) (v : float)
  : ALightDetectionManager :=
  mkManager (Player m) (PointLights m) (SpotLights m) (RectLights m)
    (MainDirectionalLight m) (IlluminanceTotal m) (UpdateFrequency m) v
    (ForgivenessBuffer m).

Definition set_RectLights (m : ALightDetectionManager)
  (ws : list RectLightWrapper) : ALightDetectionManager :=
  mkManager (Player m) (PointLights m) (SpotLights m) ws
    (MainDirectionalLight m) (IlluminanceTotal m) (UpdateFrequency m)
    (UpdateTimer m) (ForgivenessBuffer m).

Definition set_MainDirectionalLight (m : ALightDetectionManager)
  (d : option UDirectionalLightComponent.t) : ALightDetectionManager :=
  mkManager (Player m) (PointLights m) (SpotLights m) (RectLights m)
    d (IlluminanceTotal m) (UpdateFrequency m) (UpdateTimer m)
    (ForgivenessBuffer m).

(** A call either returns, or dereferences a null [Player]; the second
    outcome carries the manager as it is at that moment. *)
Inductive Outcome : Type :=
| Done (m : ALightDetectionManager)
| AccessViolation (m : ALightDetectionManager).

Definition manager_of (o : Outcome) : ALightDetectionManager :=
  match o with
  | Done m => m
  | AccessViolation m => m
  end.

(** What one iteration of a loop over lights decides: leave the function,
    go on to the next light without a contribution, or count the light. *)
Inductive Verdict : Type :=
| Return
| Skip
| Include.

(** Calls of [UpdateDetection] are recorded in a log. *)
Inductive Event : Type :=
| EvUpdateDetection.

Module PL := UPointLightComponent.
Module SL := USpotLightComponent.
Module RL := URectLightComponent.
Module DL := UDirectionalLightComponent.

(** ** BeginPlay *)

(** The loop over the actors of the world.  An actor tagged "Point Light"
    never reaches the [else if] for "Spot Light", also when it has no point
    light component. *)
Fixpoint CollectLights (actors : list AActor)
  (points : list PL.t) (spots : list SL.t) : list PL.t * list SL.t :=
  match actors with
  | [] => (points, spots)
  | Actor :: rest =>
      if ActorHasTag Actor "Point Light" then
        match PointLightComponent Actor with
        | Some c => CollectLights rest (points ++ [c]) spots
        | None => CollectLights rest points spots
        end
      else if ActorHasTag Actor "Spot Light" then
        match SpotLightComponent Actor with
        | Some c => CollectLights rest points (spots ++ [c])
        | None => CollectLights rest points spots
        end
      else CollectLights rest points spots
  end.

Definition BeginPlay (world : Scene) (m : ALightDetectionManager)
  : ALightDetectionManager :=
  let '(points, spots) :=
    CollectLights (Actors world) (PointLights m) (SpotLights m) in
  mkManager (GetPlayerCharacter world) points spots (RectLights m)
    (MainDirectionalLight m) (IlluminanceTotal m) (UpdateFrequency m)
    (fdiv (Fin 1) (UpdateFrequency m)) (ForgivenessBuffer m).

(** ** CheckPointLights *)

Definition PointLightStep (buffer : float) (PlayerPosition : FVector)
  (l : PL.t) : Verdict :=
  if negb (PL.IsVisible l) || fle (PL.Intensity l) (Fin 0) then Return
  else
    let LightPosition := PL.GetLightPosition l in
    let LightDistanceSqr := DistSquared LightPosition PlayerPosition in
    if fgt LightDistanceSqr
         (fadd (fmul (PL.AttenuationRadius l) (PL.AttenuationRadius l)) buffer)
    then Skip
    else Include.

(** The loop of [CheckPointLights] from some index on: [lights] are the
    lights still to visit and [total] is the current [IlluminanceTotal]. *)
Fixpoint PointLightsLoop (buffer : float) (PlayerPosition : FVector)
  (lights : list PL.t) (total : float) : float :=
  match lights with
  | [] => total
  | l :: rest =>
      match PointLightStep buffer PlayerPosition l with
      | Return => total
      | Skip => PointLightsLoop buffer PlayerPosition rest total
      | Include => PointLightsLoop buffer PlayerPosition rest (Fin 1)
      end
  end.

Definition CheckPointLights (m : ALightDetectionManager)
  (PlayerPosition : FVector) : ALightDetectionManager :=
  set_IlluminanceTotal m
    (PointLightsLoop (ForgivenessBuffer m) PlayerPosition (PointLights m)
       (IlluminanceTotal m)).

(** ** CheckSpotLights

    One iteration of the loop.  In the branch of a blocked ray the source
    only prints the name of the actor that was hit
    ([HitResult.GetActor()->GetName()]); the message is left out, so the
    branch stands for a hit that carries an actor. *)

Definition SpotLightStep (H : Host) (buffer : float)
  (PlayerPosition : FVector) (l : SL.t) : Verdict :=
  if negb (SL.IsVisible l) then Skip
  else
    let SpotLightPosition := SL.GetLightPosition l in
    let SpotLightDir := SL.GetForwardVector l in
    let PlayerDisplacement := vsub PlayerPosition SpotLightPosition in
    let LightDistanceSqr := DistSquared SpotLightPosition PlayerPosition in
    let AngleBetween :=
      Acos H (fdiv (DotProduct PlayerDisplacement SpotLightDir)
                (Size H PlayerDisplacement)) in
    let ConeHeight :=
      fmul (SL.AttenuationRadius l)
        (fdiv (Cos H (fmul (SL.OuterConeAngle l) (fdiv PI (Fin 180))))
           (Cos H AngleBetween)) in
    if fgt LightDistanceSqr (fadd (fmul ConeHeight ConeHeight) buffer)
    then Skip
    else
      let SpotLightToPlayerAngle :=
        fmul (Acos H (DotProduct SpotLightDir
                        (GetSafeNormal H PlayerDisplacement)))
          (fdiv (Fin 180) PI) in
      if fgt SpotLightToPlayerAngle (SL.OuterConeAngle l) then Skip
      else
        match LineTraceSingleByChannel H SpotLightPosition PlayerPosition
                ECC_GameTraceChannel5 with
        | None => if fle (SL.Intensity l) (Fin 0) then Skip else Include
        | Some _ => Skip
        end.

Fixpoint SpotLightsLoop (H : Host) (buffer : float)
  (PlayerPosition : FVector) (lights : list SL.t) (total : float) : float :=
  match lights with
  | [] => total
  | l :: rest =>
      match SpotLightStep H buffer PlayerPosition l with
      | Return => total
      | Skip => SpotLightsLoop H buffer PlayerPosition rest total
      | Include => SpotLightsLoop H buffer PlayerPosition rest (Fin 1)
      end
  end.

Definition CheckSpotLights (H : Host) (m : ALightDetectionManager)
  (PlayerPosition : FVector) : ALightDetectionManager :=
  set_IlluminanceTotal m
    (SpotLightsLoop H (ForgivenessBuffer m) PlayerPosition (SpotLights m)
       (IlluminanceTotal m)).

(** ** UpdateDetection *)

(** Lines 76-95 of the source: the choice of the detection point.  The local
    [DetectionPoint] is declared without an initialiser; it is assigned when
    the floor trace hits closer than 98 and when the trace does not hit.
    What it holds otherwise is the field [Uninitialized] of the host: one
    host describes one call, and two calls that may find different contents
    are compared by two hosts that differ in this field
    ([with_Uninitialized]). *)
Definition ResolveDetectionPoint (H : Host) (PlayerPosition : FVector)
  : FVector :=
  let DetectionPoint := Uninitialized H in
  match LineTraceSingleByChannel H PlayerPosition
          (vadd PlayerPosition (vscale DownVector (Fin 100)))
          ECC_GameTraceChannel5 with
  | Some HitResult =>
      if flt (Distance H (Location HitResult) PlayerPosition) (Fin 98)
      then vadd (Location HitResult) (vscale UpVector (Fin 10))
      else DetectionPoint
  | None => vadd PlayerPosition (vscale DownVector (Fin 93.980003))
  end.

Definition UpdateDetection (H : Host) (m : ALightDetectionManager)
  : Outcome :=
  let m0 := set_IlluminanceTotal m (Fin 0) in
  match Player m0 with
  | None => AccessViolation m0
  | Some player =>
      let PlayerPosition := GetActorLocation player in
      let DetectionPoint := ResolveDetectionPoint H PlayerPosition in
      let m1 := CheckPointLights m0 DetectionPoint in
      let m2 := CheckSpotLights H m1 DetectionPoint in
      Done m2
  end.

(** ** Tick *)

Definition Tick (H : Host) (m : ALightDetectionManager) (DeltaTime : float)
  : list Event * Outcome :=
  let m0 := set_UpdateTimer m (fsub (UpdateTimer m) DeltaTime) in
  if fle (UpdateTimer m0) (Fin 0) then
    match UpdateDetection H m0 with
    | Done m1 =>
        ([EvUpdateDetection],
         Done (set_UpdateTimer m1 (fdiv (Fin 1) (UpdateFrequency m1))))
    | AccessViolation m1 => ([EvUpdateDetection], AccessViolation m1)
    end
  else ([], Done m0).

(** ** Rect lights: frustum points and bounding planes *)

Definition CalculateFrustumPoints (H : Host) (w : RectLightWrapper)
  : RectLightWrapper :=
  let L := RectLight w in
  let halfWidth := fdiv (RL.SourceWidth L) (Fin 2) in
  let halfHeight := fdiv (RL.SourceHeight L) (Fin 2) in
  let right := vscale (RL.GetRightVector L) halfWidth in
  let up := vscale (RL.GetUpVector L) halfHeight in
  (* top left, top right, bottom right, bottom left of the near plane *)
  let w := set_pt w 0 (vadd (vsub (RL.GetLightPosition L) right) up) in
  let w := set_pt w 1 (vadd (vadd (RL.GetLightPosition L) right) up) in
  let w := set_pt w 2 (vsub (vadd (RL.GetLightPosition L) right) up) in
  let w := set_pt w 3 (vsub (vsub (RL.GetLightPosition L) right) up) in
  (* top left of the far plane *)
  let farPlaneSegment :=
    vadd (pt w 0)
      (RotateAngleAxis H
         (vscale (RL.GetForwardVector L) (RL.BarnDoorLength L))
         (fneg (RL.BarnDoorAngle L)) (RL.GetRightVector L)) in
  let farPlaneSegmentLength :=
    fmul (RL.BarnDoorLength L)
      (Sin H (fmul (RL.BarnDoorAngle L) (fdiv PI (Fin 180)))) in
  let w :=
    set_pt w 4
      (vsub farPlaneSegment
         (vscale (RL.GetRightVector L) farPlaneSegmentLength)) in
  let spanWidth :=
    fadd (fmul (Fin 2) farPlaneSegmentLength) (RL.SourceWidth L) in
  let spanHeight :=
    fadd (fmul (Fin 2) farPlaneSegmentLength) (RL.SourceHeight L) in
  (* top right, bottom right, bottom left of the far plane *)
  let w := set_pt w 5 (vadd (pt w 4) (vscale (RL.GetRightVector L) spanWidth)) in
  let w := set_pt w 6 (vsub (pt w 5) (vscale (RL.GetUpVector L) spanHeight)) in
  set_pt w 7 (vsub (pt w 6) (vscale (RL.GetRightVector L) spanWidth)).

(** One bounding plane: the normalised cross product of two edges, the plane
    of that normal through [through], flipped. *)
Definition BoundingPlane (H : Host) (edgeA edgeB through : FVector) : FPlane :=
  let normal := Normalize H (CrossProduct edgeA edgeB) in
  Flip (mkFPlane normal (DotProduct normal through)).

Definition CalculateBoundingPlanes (H : Host) (w : RectLightWrapper)
  : RectLightWrapper :=
  let w :=
    set_plane w 0
      (BoundingPlane H (vsub (pt w 3) (pt w 2)) (vsub (pt w 4) (pt w 2))
         (pt w 2)) in
  let w :=
    set_plane w 1
      (BoundingPlane H (vsub (pt w 0) (pt w 3)) (vsub (pt w 5) (pt w 3))
         (pt w 0)) in
  let w :=
    set_plane w 2
      (BoundingPlane H (vsub (pt w 7) (pt w 1)) (vsub (pt w 0) (pt w 1))
         (pt w 0)) in
  set_plane w 3
    (BoundingPlane H (vsub (pt w 4) (pt w 2)) (vsub (pt w 1) (pt w 2))
       (pt w 1)).

(** ** CheckRectLights *)

Definition TopPlaneDist (w : RectLightWrapper) (P : FVector) : float :=
  PointPlaneDist P (pt w 3) (GetNormal (plane w 0)).

Definition RightPlaneDist (w : RectLightWrapper) (P : FVector) : float :=
  PointPlaneDist P (pt w 0) (GetNormal (plane w 1)).

Definition BottomPlaneDist (w : RectLightWrapper) (P : FVector) : float :=
  PointPlaneDist P (pt w 0) (GetNormal (plane w 2)).

Definition LeftPlaneDist (w : RectLightWrapper) (P : FVector) : float :=
  PointPlaneDist P (pt w 1) (GetNormal (plane w 3)).

(** The wrapper as the plane test reads it: frustum points and bounding
    planes are recomputed on every visit (the source guards the
    recomputation with [if (true)]). *)
Definition Recalculate (H : Host) (w : RectLightWrapper) : RectLightWrapper :=
  CalculateBoundingPlanes H (CalculateFrustumPoints H w).

(** One iteration of the loop: the wrapper as the iteration leaves it and
    what the iteration decides. *)
Definition RectLightStep (H : Host) (buffer : float)
  (PlayerPosition : FVector) (w : RectLightWrapper)
  : RectLightWrapper * Verdict :=
  if negb (RL.IsVisible (RectLight w)) then (w, Return)
  else
    let LightPosition := RL.GetLightPosition (RectLight w) in
    let LightDistanceSqr := DistSquared LightPosition PlayerPosition in
    if fgt LightDistanceSqr
         (fadd (fmul (RL.AttenuationRadius (RectLight w))
                  (RL.AttenuationRadius (RectLight w))) buffer)
    then (w, Skip)
    else
      match LineTraceSingleByChannel H LightPosition PlayerPosition
              ECC_GameTraceChannel5 with
      | None =>
          let w' := Recalculate H w in
          if fgt (TopPlaneDist w' PlayerPosition) (Fin 0)
             && fgt (RightPlaneDist w' PlayerPosition) (Fin 0)
             && fgt (BottomPlaneDist w' PlayerPosition) (Fin 0)
             && fgt (LeftPlaneDist w' PlayerPosition) (Fin 0)
          then (w', Include)
          else (w', Skip)
      | Some _ => (w, Skip)
      end.

(** What an included rect light adds to [IlluminanceTotal]. *)
Definition RectContribution (H : Host) (PlayerPosition : FVector)
  (w : RectLightWrapper) : float :=
  let LightDistanceSqr :=
    DistSquared (RL.GetLightPosition (RectLight w)) PlayerPosition in
  let LightDistance := fmul (Sqrt H LightDistanceSqr) (Fin 0.01) in
  fdiv (RL.Intensity (RectLight w)) (fmul (fmul (Fin 2) PI) LightDistance).

Fixpoint RectLightsLoop (H : Host) (buffer : float)
  (PlayerPosition : FVector) (lights : list RectLightWrapper) (total : float)
  : list RectLightWrapper * float :=
  match lights with
  | [] => ([], total)
  | w :: rest =>
      match RectLightStep H buffer PlayerPosition w with
      | (w', Return) => (w' :: rest, total)
      | (w', Skip) =>
          let '(rest', total') :=
            RectLightsLoop H buffer PlayerPosition rest total in
          (w' :: rest', total')
      | (w', Include) =>
          let '(rest', total') :=
            RectLightsLoop H buffer PlayerPosition rest
              (fadd total (RectContribution H PlayerPosition w')) in
          (w' :: rest', total')
      end
  end.

Definition CheckRectLights (H : Host) (m : ALightDetectionManager)
  : Outcome :=
  match Player m with
  | None => AccessViolation m
  | Some player =>
      let PlayerPosition := GetActorLocation player in
      let '(lights, total) :=
        RectLightsLoop H (ForgivenessBuffer m) PlayerPosition (RectLights m)
          (IlluminanceTotal m) in
      Done (set_IlluminanceTotal (set_RectLights m lights) total)
  end.

(** ** CheckDirectionalLight *)

Definition CheckDirectionalLight (H : Host) (m : ALightDetectionManager)
  : Outcome :=
  match MainDirectionalLight m with
  | None => Done m
  | Some light =>
      if negb (DL.IsVisible light) then Done m
      else
        match Player m with
        | None => AccessViolation m
        | Some player =>
            let LightDirection := DL.GetForwardVector light in
            let PlayerPosition := GetActorLocation player in
            let DirecitonalLightPosition :=
              vsub PlayerPosition (vscale LightDirection (Fin 5000)) in
            match LineTraceSingleByChannel H DirecitonalLightPosition
                    PlayerPosition ECC_Visibility with
            | None =>
                Done (set_IlluminanceTotal m
                        (fadd (IlluminanceTotal m) (DL.Intensity light)))
            | Some _ => Done m
            end
        end
  end.

(** ** A reference host

    A concrete host for running the code on concrete scenes: rational
    approximations of the libm functions on a grid of [1 / 10^9] (exact at
    the arguments [0], [1] and [-1] of the arc cosine and on squares of
    multiples of the grid step for the square root), the vector helpers of
    FVector written after the engine's, and a world whose only blocking
    geometry is an optional horizontal floor. *)
Module RefHost.

Definition grid : positive := 1000000000%positive.

(** [q] rounded down to a multiple of [1 / grid]. *)
Definition Qround (q : Q) : Q :=
  Qred ((Qnum q * Zpos grid / Zpos (Qden q)) # grid).

(** Square root of a non-negative rational, computed on the integer part of
    [q * grid^2]: a multiple of [1 / grid]. *)
Definition Qsqrt (q : Q) : Q :=
  Qred (Z.sqrt (Qnum q * Zpos (grid * grid) / Zpos (Qden q)) # grid).

Definition Sqrt (x : float) : float :=
  match x with
  | NaN | NInf => NaN
  | PInf => PInf
  | Fin q => if Qle_bool 0 q then Fin (Qsqrt q) else NaN
  end.

Definition InvSqrt (x : float) : float := fdiv (Fin 1) (Sqrt x).

(** Partial sums of the power series of cosine and sine: [term] is the
    current term, [k] the index of its last factor; every term is rounded
    to the grid. *)
Fixpoint series (n : nat) (x2 : Q) (k : Z) (term acc : Q) : Q :=
  match n with
  | O => acc
  | S n' =>
      let term' := Qround (- term * x2 / inject_Z ((k + 1) * (k + 2))) in
      series n' x2 (k + 2)%Z term' (Qred (acc + term'))
  end.

Definition Qcos (x : Q) : Q :=
  let x := Qround x in series 12 (Qround (x * x)) 0 1 1.

Definition Qsin (x : Q) : Q :=
  let x := Qround x in series 12 (Qround (x * x)) 1 x x.

Definition Cos (x : float) : float :=
  match x with
  | Fin q => Fin (Qcos q)
  | _ => NaN
  end.

Definition Sin (x : float) : float :=
  match x with
  | Fin q => Fin (Qsin q)
  | _ => NaN
  end.

Definition Qpi : Q := 3.1415926535897932.

(** Arc cosine on [0, 1]: the polynomial approximation
    [sqrt (1 - x) * (a0 + a1 x + a2 x^2 + a3 x^3)]. *)
Definition Qacos01 (x : Q) : Q :=
  let x := Qround x in
  Qround (Qsqrt (1 - x)
          * (1.5707288
             + x * (-0.2121144 + x * (0.0742610 + x * -0.0187293)))).

Definition Qacos (x : Q) : Q :=
  if Qeq_bool x 0 then Qred (Qpi / 2)
  else if Qeq_bool x 1 then 0
  else if Qeq_bool x (-1) then Qpi
  else if Qle_bool 0 x then Qacos01 x
  else Qred (Qpi - Qacos01 (- x)).

(** [FMath::Acos] clamps its argument to [-1, 1] with two comparisons, so
    that an argument that is not a number is taken to [1]. *)
Definition Acos (x : float) : float :=
  let clamped :=
    if flt x (Fin (-1)) then Fin (-1) else if flt x (Fin 1) then x else Fin 1 in
  match clamped with
  | Fin q => Fin (Qacos q)
  | _ => NaN
  end.

Definition SMALL_NUMBER : float := Fin (1 # 100000000).

Definition feqb (x y : float) : bool :=
  match x, y with
  | Fin a, Fin b => Qeq_bool a b
  | PInf, PInf | NInf, NInf => true
  | _, _ => false
  end.

Definition GetSafeNormal (v : FVector) : FVector :=
  let SquareSum := SizeSquared v in
  if feqb SquareSum (Fin 1) then v
  else if flt SquareSum SMALL_NUMBER then ZeroVector
  else vscale v (InvSqrt SquareSum).

Definition Normalize (v : FVector) : FVector :=
  let SquareSum := SizeSquared v in
  if fgt SquareSum SMALL_NUMBER then vscale v (InvSqrt SquareSum) else v.

Definition RotateAngleAxis (v : FVector) (AngleDeg : float) (Axis : FVector)
  : FVector :=
  let rad := fmul AngleDeg (fdiv PI (Fin 180)) in
  let S := Sin rad in
  let C := Cos rad in
  let XX := fmul (vX Axis) (vX Axis) in
  let YY := fmul (vY Axis) (vY Axis) in
  let ZZ := fmul (vZ Axis) (vZ Axis) in
  let XY := fmul (vX Axis) (vY Axis) in
  let YZ := fmul (vY Axis) (vZ Axis) in
  let ZX := fmul (vZ Axis) (vX Axis) in
  let XS := fmul (vX Axis) S in
  let YS := fmul (vY Axis) S in
  let ZS := fmul (vZ Axis) S in
  let OMC := fsub (Fin 1) C in
  mkFVector
    (fadd (fadd (fmul (fadd (fmul OMC XX) C) (vX v))
             (fmul (fsub (fmul OMC XY) ZS) (vY v)))
       (fmul (fadd (fmul OMC ZX) YS) (vZ v)))
    (fadd (fadd (fmul (fadd (fmul OMC XY) ZS) (vX v))
             (fmul (fadd (fmul OMC YY) C) (vY v)))
       (fmul (fsub (fmul OMC YZ) XS) (vZ v)))
    (fadd (fadd (fmul (fsub (fmul OMC ZX) YS) (vX v))
             (fmul (fadd (fmul OMC YZ) XS) (vY v)))
       (fmul (fadd (fmul OMC ZZ) C) (vZ v))).

(** A world with a horizontal floor at height [h] (or none): a segment that
    goes down through the floor is blocked where it meets it. *)
Definition trace (floor : option Q) (a b : FVector) (c : ECollisionChannel)
  : option FHitResult :=
  match floor, c, vX a, vY a, vZ a, vX b, vY b, vZ b with
  | Some h, ECC_GameTraceChannel5,
    Fin ax, Fin ay, Fin az, Fin bx, Fin by', Fin bz =>
      if Qle_bool bz h && Qle_bool h az && negb (Qeq_bool az bz) then
        let t := (az - h) / (az - bz) in
        Some (mkFHitResult
                (mkFVector (Fin (Qred (ax + t * (bx - ax))))
                   (Fin (Qred (ay + t * (by' - ay)))) (Fin (Qred h))))
      else None
  | _, _, _, _, _, _, _, _ => None
  end.

Definition host (floor : option Q) (uninitialized : FVector) : Host :=
  mkHost (trace floor) Sqrt Acos Cos Sin GetSafeNormal Normalize
    RotateAngleAxis uninitialized.

End RefHost.

(** ** Concrete scenes *)
Module Scenes.

Definition V (x y z : Q) : FVector := mkFVector (Fin x) (Fin y) (Fin z).

(** A world without blocking geometry. *)
Definition open_air : Host := RefHost.host None (V 7 7 7).

(** A world with a floor at height 1. *)
Definition low_floor (uninitialized : FVector) : Host :=
  RefHost.host (Some 1) uninitialized.

Definition lit_point : PL.t := PL.mk true (Fin 10) (V 0 0 100) (Fin 500).
Definition hidden_point : PL.t := PL.mk false (Fin 10) (V 0 0 100) (Fin 500).
Definition dark_point : PL.t := PL.mk true (Fin 0) (V 0 0 100) (Fin 500).
Definition far_point : PL.t := PL.mk true (Fin 10) (V 0 0 9000) (Fin 500).

Definition spot : SL.t :=
  SL.mk true (Fin 10) (V 0 0 200) (V 0 0 (-1)) (Fin 500) (Fin 30).

Definition rect : RL.t :=
  RL.mk true (Fin 100) (V 0 0 0) (V 1 0 0) (V 0 1 0) (V 0 0 1)
    (Fin 500) (Fin 200) (Fin 100) (Fin 300) (Fin 20).

Definition sun : DL.t := DL.mk true (Fin 3) (V 0 0 (-1)).

Definition subject (p : FVector) : option APlanet_NineMPCharacter :=
  Some (mkCharacter p).

(** A manager with the given subject and catalog; [UpdateFrequency] is the
    default 50 of the header, the timer is one period. *)
Definition manager (player : option APlanet_NineMPCharacter)
  (points : list PL.t) (spots : list SL.t) (total : float)
  : ALightDetectionManager :=
  mkManager player points spots [] None total (Fin 50) (Fin (1 # 50)) (Fin 0).

Definition with_frequency (m : ALightDetectionManager) (f : float)
  : ALightDetectionManager :=
  mkManager (Player m) (PointLights m) (SpotLights m) (RectLights m)
    (MainDirectionalLight m) (IlluminanceTotal m) f (UpdateTimer m)
    (ForgivenessBuffer m).

Definition empty_world : Scene :=
  mkScene (subject (V 0 0 0)) [].

End Scenes.

(** ** Notions used by the statements *)

Definition is_Include (v : Verdict) : bool :=
  match v with
  | Include => true
  | _ => false
  end.

(** The number of point lights of a catalog that pass the three tests of
    one loop iteration. *)
Definition IncludedPointLights (buffer : float) (PlayerPosition : FVector)
  (lights : list PL.t) : nat :=
  List.length
    (filter (fun l => is_Include (PointLightStep buffer PlayerPosition l))
       lights).

Definition float_of_nat (n : nat) : float := Fin (inject_Z (Z.of_nat n)).



(** The sizes of the two arrays of a wrapper. *)
Definition shape (w : RectLightWrapper) : nat * nat :=
  (List.length (FrustumPoints w), List.length (BoundingPlanes w)).

Definition finite (x : float) : Prop := exists q, x = Fin q.

Definition finite_vector (v : FVector) : Prop :=
  finite (vX v) /\ finite (vY v) /\ finite (vZ v).

(** ** Notions used by the further properties *)

(** What one actor adds to the two catalogs in [BeginPlay]. *)
Definition PointLightsOf (Actor : AActor) : list PL.t :=
  if ActorHasTag Actor "Point Light" then
    match PointLightComponent Actor with
    | Some c => [c]
    | None => []
    end
  else [].

Definition SpotLightsOf (Actor : AActor) : list SL.t :=
  if ActorHasTag Actor "Point Light" then []
  else if ActorHasTag Actor "Spot Light" then
    match SpotLightComponent Actor with
    | Some c => [c]
    | None => []
    end
  else [].

(** The threshold of the range test of a point light. *)
Definition PointLightReach (buffer : float) (l : PL.t) : float :=
  fadd (fmul (PL.AttenuationRadius l) (PL.AttenuationRadius l)) buffer.

(** A run of frames: [Tick] is called with each delta-time in turn, on the
    manager that the previous frame left; a fault ends the run.  The result
    is the log of the whole run and the last outcome. *)
Fixpoint Frames (H : Host) (m : ALightDetectionManager) (dts : list float)
  : list Event * Outcome :=
  match dts with
  | [] => ([], Done m)
  | dt :: rest =>
      match Tick H m dt with
      | (log, Done m') =>
          let '(log', o) := Frames H m' rest in (log ++ log', o)
      | (log, AccessViolation m') => (log, AccessViolation m')
      end
  end.

(** The host [H] with another content of the uninitialised local. *)
Definition with_Uninitialized (H : Host) (u : FVector) : Host :=
  mkHost (LineTraceSingleByChannel H) (Sqrt H) (Acos H) (Cos H) (Sin H)
    (GetSafeNormal H) (Normalize H) (RotateAngleAxis H) u.

(** The parts of a manager that no frame writes. *)
Definition Configuration (m : ALightDetectionManager)
  : option APlanet_NineMPCharacter * list PL.t * list SL.t
    * list RectLightWrapper * option DL.t * float * float :=
  (Player m, PointLights m, SpotLights m, RectLights m,
   MainDirectionalLight m, UpdateFrequency m, ForgivenessBuffer m).

(** A world for [BeginPlay]: an actor with both tags and only a spot light
    component, a tagged point light and a tagged spot light. *)
Module World.

Definition mistagged : AActor :=
  mkActor ["Point Light"%string; "Spot Light"%string] None
    (Some Scenes.spot).

Definition lamp : AActor :=
  mkActor ["Point Light"%string] (Some Scenes.lit_point) None.

Definition projector : AActor :=
  mkActor ["Spot Light"%string] None (Some Scenes.spot).

Definition prop : AActor := mkActor ["Crate"%string] None None.

Definition stage : Scene :=
  mkScene (Scenes.subject (Scenes.V 0 0 93.980003))
    [mistagged; lamp; prop; projector].

End World.

(** ** The directional light over binary32

    [CheckDirectionalLight] once more, with the engine's [float] as the
    IEEE-754 binary32 format (24 bits of precision, round to nearest even)
    of the standard library's [SpecFloat], for the statements in which the
    rounding of [IlluminanceTotal += Intensity] matters.  The manager is cut
    down to the three members that the function reads or writes, and the
    ray cast to its boolean result. *)
Module Binary32.

Definition float32 : Type := spec_float.

Definition prec : Z := 24.
Definition emax : Z := 128.

Definition add (x y : float32) : float32 := SFadd prec emax x y.
Definition sub (x y : float32) : float32 := SFsub prec emax x y.
Definition mul (x y : float32) : float32 := SFmul prec emax x y.

(** The binary32 value of an integer literal. *)
Definition of_Z (z : Z) : float32 := binary_normalize prec emax z 0 false.

Record FVector32 : Type :=
  mkFVector32 { X32 : float32; Y32 : float32; Z32 : float32 }.

Definition vsub32 (a b : FVector32) : FVector32 :=
  mkFVector32 (sub (X32 a) (X32 b)) (sub (Y32 a) (Y32 b))
    (sub (Z32 a) (Z32 b)).

Definition vscale32 (a : FVector32) (s : float32) : FVector32 :=
  mkFVector32 (mul (X32 a) s) (mul (Y32 a) s) (mul (Z32 a) s).

Record UDirectionalLightComponent : Type := mkLight {
  IsVisible : bool;
  Intensity : float32;
  GetForwardVector : FVector32
}.

(** The subject is given by its actor location. *)
Record Manager : Type := mkManager32 {
  Player : option FVector32;
  MainDirectionalLight : option UDirectionalLightComponent;
  IlluminanceTotal : float32
}.

Definition set_IlluminanceTotal (m : Manager) (v : float32) : Manager :=
  mkManager32 (Player m) (MainDirectionalLight m) v.

Inductive Outcome : Type :=
| Done (m : Manager)
| AccessViolation (m : Manager).

Definition manager_of (o : Outcome) : Manager :=
  match o with
  | Done m => m
  | AccessViolation m => m
  end.

(** [LineTraceSingleByChannel] answers [true] for a blocking hit. *)
Definition CheckDirectionalLight
  (LineTraceSingleByChannel :
     FVector32 -> FVector32 -> ECollisionChannel -> bool)
  (m : Manager) : Outcome :=
  match MainDirectionalLight m with
  | None => Done m
  | Some light =>
      if negb (IsVisible light) then Done m
      else
        match Player m with
        | None => AccessViolation m
        | Some PlayerPosition =>
            let LightDirection := GetForwardVector light in
            let DirecitonalLightPosition :=
              vsub32 PlayerPosition (vscale32 LightDirection (of_Z 5000)) in
            if negb (LineTraceSingleByChannel DirecitonalLightPosition
                       PlayerPosition ECC_Visibility)
            then Done (set_IlluminanceTotal m
                         (add (IlluminanceTotal m) (Intensity light)))
            else Done m
        end
  end.

(** The amount by which a call raises [IlluminanceTotal]. *)
Definition Contribution
  (trace : FVector32 -> FVector32 -> ECollisionChannel -> bool)
  (m : Manager) : float32 :=
  sub (IlluminanceTotal (manager_of (CheckDirectionalLight trace m)))
    (IlluminanceTotal m).

(** The manager with the intensity of its directional light doubled. *)
Definition DoubleIntensity (m : Manager) : Manager :=
  mkManager32 (Player m)
    (option_map
       (fun l =>
          mkLight (IsVisible l) (mul (of_Z 2) (Intensity l))
            (GetForwardVector l))
       (MainDirectionalLight m))
    (IlluminanceTotal m).

(** A world without blocking geometry, a subject at the origin and a light
    that shines straight down. *)
Definition open_air (a b : FVector32) (c : ECollisionChannel) : bool := false.

Definition origin : FVector32 := mkFVector32 (of_Z 0) (of_Z 0) (of_Z 0).

Definition sun (intensity : float32) : UDirectionalLightComponent :=
  mkLight true intensity (mkFVector32 (of_Z 0) (of_Z 0) (of_Z (-1))).

Definition scene (total intensity : float32) : Manager :=
  mkManager32 (Some origin) (Some (sun intensity)) total.

End Binary32.

(** * Properties *)

(** ** The scalar type *)

Lemma Qred_zero (q : Q) : q == 0 -> Qred q = 0.
Proof.
  intro Hq. change 0 with (Qred 0). now apply Qred_complete.
Qed.

Lemma fle_Fin_refl (q : Q) : fle (Fin q) (Fin q) = true.
Proof.
  simpl. apply Qle_bool_iff. apply Qle_refl.
Qed.

Lemma fsub_self (x : float) : finite x -> fsub x x = Fin 0.
Proof.
  intros [q ->]. unfold fsub. f_equal. apply Qred_zero. ring.
Qed.

Lemma fmul_zero_r (x : float) : finite x -> fmul x (Fin 0) = Fin 0.
Proof.
  intros [q ->]. unfold fmul. f_equal. apply Qred_zero. ring.
Qed.

Lemma vsub_self (v : FVector) : finite_vector v -> vsub v v = ZeroVector.
Proof.
  intros (Hx & Hy & Hz). unfold vsub, ZeroVector.
  now rewrite !fsub_self.
Qed.

Lemma DotProduct_zero_r (v : FVector) :
  finite_vector v -> DotProduct v ZeroVector = Fin 0.
Proof.
  intros (Hx & Hy & Hz). unfold DotProduct, ZeroVector. simpl vX. simpl vY.
  simpl vZ. now rewrite !fmul_zero_r.
Qed.

(** ** The loops over point and spot lights *)

Lemma PointLightsLoop_cases buffer P lights total :
  PointLightsLoop buffer P lights total = total
  \/ PointLightsLoop buffer P lights total = Fin 1.
Proof.
  revert total. induction lights as [|l rest IH]; intro total; simpl.
  - now left.
  - destruct (PointLightStep buffer P l).
    + now left.
    + apply IH.
    + destruct (IH (Fin 1)) as [E|E]; right; exact E.
Qed.

Lemma SpotLightsLoop_cases H buffer P lights total :
  SpotLightsLoop H buffer P lights total = total
  \/ SpotLightsLoop H buffer P lights total = Fin 1.
Proof.
  revert total. induction lights as [|l rest IH]; intro total; simpl.
  - now left.
  - destruct (SpotLightStep H buffer P l).
    + now left.
    + apply IH.
    + destruct (IH (Fin 1)) as [E|E]; right; exact E.
Qed.

(** The point-light loop leaves the function at the first light that is
    hidden or has no intensity: the lights after it are not visited. *)
Lemma PointLightsLoop_return buffer P l rest total :
  PL.IsVisible l = false \/ fle (PL.Intensity l) (Fin 0) = true ->
  PointLightsLoop buffer P (l :: rest) total = total.
Proof.
  intro Hl. simpl. unfold PointLightStep.
  destruct Hl as [-> | ->]; simpl; [reflexivity|].
  now rewrite orb_true_r.
Qed.

(** The spot-light loop goes on after a hidden light. *)
Lemma SpotLightsLoop_hidden H buffer P l rest total :
  SL.IsVisible l = false ->
  SpotLightsLoop H buffer P (l :: rest) total
  = SpotLightsLoop H buffer P rest total.
Proof.
  intro Hl. simpl. unfold SpotLightStep. now rewrite Hl.
Qed.

Lemma PointLightsLoop_one buffer P lights :
  PointLightsLoop buffer P lights (Fin 1) = Fin 1.
Proof.
  destruct (PointLightsLoop_cases buffer P lights (Fin 1)); assumption.
Qed.

Lemma PointLightsLoop_prefix_mono buffer P lights : forall k total,
  total = Fin 0 \/ total = Fin 1 ->
  fle (PointLightsLoop buffer P (firstn k lights) total)
    (PointLightsLoop buffer P (firstn (S k) lights) total) = true.
Proof.
  induction lights as [|l rest IH]; intros k total Ht.
  - rewrite !firstn_nil. simpl PointLightsLoop.
    destruct Ht as [-> | ->]; apply fle_Fin_refl.
  - destruct k as [|k].
    + change (firstn 0 (l :: rest)) with (@nil PL.t).
      change (firstn 1 (l :: rest)) with [l].
      simpl PointLightsLoop.
      destruct (PointLightStep buffer P l);
        destruct Ht as [-> | ->]; reflexivity.
    + change (firstn (S k) (l :: rest)) with (l :: firstn k rest).
      change (firstn (S (S k)) (l :: rest)) with (l :: firstn (S k) rest).
      simpl PointLightsLoop.
      destruct (PointLightStep buffer P l).
      * destruct Ht as [-> | ->]; apply fle_Fin_refl.
      * now apply IH.
      * apply IH. now right.
Qed.

Lemma SpotLightsLoop_prefix_mono H buffer P lights : forall k total,
  total = Fin 0 \/ total = Fin 1 ->
  fle (SpotLightsLoop H buffer P (firstn k lights) total)
    (SpotLightsLoop H buffer P (firstn (S k) lights) total) = true.
Proof.
  induction lights as [|l rest IH]; intros k total Ht.
  - rewrite !firstn_nil. simpl SpotLightsLoop.
    destruct Ht as [-> | ->]; apply fle_Fin_refl.
  - destruct k as [|k].
    + change (firstn 0 (l :: rest)) with (@nil SL.t).
      change (firstn 1 (l :: rest)) with [l].
      simpl SpotLightsLoop.
      destruct (SpotLightStep H buffer P l);
        destruct Ht as [-> | ->]; reflexivity.
    + change (firstn (S k) (l :: rest)) with (l :: firstn k rest).
      change (firstn (S (S k)) (l :: rest)) with (l :: firstn (S k) rest).
      simpl SpotLightsLoop.
      destruct (SpotLightStep H buffer P l).
      * destruct Ht as [-> | ->]; apply fle_Fin_refl.
      * now apply IH.
      * apply IH. now right.
Qed.

(** Without a light that makes the loop return, the point-light pass from 0
    ends at 1 as soon as one light is included, and at 0 otherwise. *)
Lemma PointLightsLoop_binary buffer P lights :
  Forall (fun l => PL.IsVisible l = true
                   /\ fle (PL.Intensity l) (Fin 0) = false) lights ->
  PointLightsLoop buffer P lights (Fin 0)
  = if Nat.eqb (IncludedPointLights buffer P lights) 0 then Fin 0 else Fin 1.
Proof.
  unfold IncludedPointLights.
  induction 1 as [|l rest [Hv Hi] _ IH]; [reflexivity|].
  assert (Hstep : PointLightStep buffer P l <> Return).
  { unfold PointLightStep. rewrite Hv, Hi. simpl.
    now destruct (fgt _ _). }
  simpl. destruct (PointLightStep buffer P l); simpl.
  - now elim Hstep.
  - exact IH.
  - apply PointLightsLoop_one.
Qed.

(** ** C1 *)

(** C1 (the code departs from the claim).  The claim: a point light that is
    hidden or has intensity <= 0 is skipped and the later point lights are
    still visited.  The code leaves [CheckPointLights] at such a light: with
    the catalog [hidden_point; lit_point] and the sample point at the origin
    the evaluation ends with [IlluminanceTotal = 0], and likewise with
    [dark_point] (intensity 0) in front, although [lit_point] alone is
    included and gives 1. *)
Theorem CheckPointLights_stops_at_first_unlit_light :
  let player := Scenes.subject (Scenes.V 0 0 93.980003) in
  let total points :=
    IlluminanceTotal
      (manager_of
         (UpdateDetection Scenes.open_air
            (Scenes.manager player points [] (Fin 0)))) in
  ResolveDetectionPoint Scenes.open_air (Scenes.V 0 0 93.980003)
  = Scenes.V 0 0 0
  /\ PointLightStep (Fin 0) (Scenes.V 0 0 0) Scenes.lit_point = Include
  /\ total [Scenes.lit_point] = Fin 1
  /\ total [Scenes.hidden_point; Scenes.lit_point] = Fin 0
  /\ total [Scenes.dark_point; Scenes.lit_point] = Fin 0.
Proof.
  vm_compute. repeat split; reflexivity.
Qed.

(** ** C2 *)

(** C2, the claim as stated fails: with two point lights that are both
    included, the point-light pass that starts from 0 ends with
    [IlluminanceTotal = 1], not 2. *)
Lemma two_included_point_lights_give_one :
  let lights := [Scenes.lit_point; Scenes.lit_point] in
  let P := Scenes.V 0 0 0 in
  let m :=
    Scenes.manager (Scenes.subject (Scenes.V 0 0 93.980003)) lights []
      (Fin 0) in
  IncludedPointLights (ForgivenessBuffer m) P lights = 2%nat
  /\ IlluminanceTotal (CheckPointLights (set_IlluminanceTotal m (Fin 0)) P)
     = Fin 1
  /\ IlluminanceTotal (CheckPointLights (set_IlluminanceTotal m (Fin 0)) P)
     <> float_of_nat 2.
Proof.
  vm_compute. repeat split; try reflexivity. discriminate.
Qed.

(** C2 (amended).  An evaluation sets [IlluminanceTotal] to 0 at its start
    and every included light assigns the constant 1 to it.  So (1) when
    every point light is visible with an intensity that is not <= 0, a pass
    over a catalog in which [n] lights are included ends with 0 if [n = 0]
    and with 1 otherwise; (2) the running total of the point-light loop
    never decreases from one iteration to the next; (3) neither does the
    running total of the spot-light loop that follows it; (4) an evaluation
    is the reset to 0 followed by these two passes. *)
Theorem point_pass_total_is_binary_and_monotone
  (m : ALightDetectionManager) (P : FVector) :
  Forall (fun l => PL.IsVisible l = true
                   /\ fle (PL.Intensity l) (Fin 0) = false)
    (PointLights m) ->
  let m0 := set_IlluminanceTotal m (Fin 0) in
  let n := IncludedPointLights (ForgivenessBuffer m) P (PointLights m) in
  IlluminanceTotal (CheckPointLights m0 P)
  = (if Nat.eqb n 0 then Fin 0 else Fin 1)
  /\ (forall k,
        fle (PointLightsLoop (ForgivenessBuffer m) P
               (firstn k (PointLights m)) (Fin 0))
          (PointLightsLoop (ForgivenessBuffer m) P
             (firstn (S k) (PointLights m)) (Fin 0)) = true)
  /\ (forall H k,
        fle (SpotLightsLoop H (ForgivenessBuffer m) P
               (firstn k (SpotLights m))
               (IlluminanceTotal (CheckPointLights m0 P)))
          (SpotLightsLoop H (ForgivenessBuffer m) P
             (firstn (S k) (SpotLights m))
             (IlluminanceTotal (CheckPointLights m0 P))) = true)
  /\ (forall H player,
        Player m = Some player ->
        P = ResolveDetectionPoint H (GetActorLocation player) ->
        UpdateDetection H m
        = Done (CheckSpotLights H (CheckPointLights m0 P) P)).
Proof.
  intros Hall m0 n. split; [|split; [|split]].
  - now apply PointLightsLoop_binary.
  - intro k. apply PointLightsLoop_prefix_mono. now left.
  - intros H k. apply SpotLightsLoop_prefix_mono.
    apply (PointLightsLoop_cases (ForgivenessBuffer m) P (PointLights m)).
  - intros H player Hplayer ->. unfold UpdateDetection.
    cbn [Player set_IlluminanceTotal]. now rewrite Hplayer.
Qed.

(** The amended C2 at a catalog of three visible point lights, two of them
    in range. *)
Lemma point_pass_total_is_binary_and_monotone_witness :
  let m :=
    Scenes.manager (Scenes.subject (Scenes.V 0 0 93.980003))
      [Scenes.far_point; Scenes.lit_point; Scenes.lit_point] [Scenes.spot]
      (Fin 5) in
  Forall (fun l => PL.IsVisible l = true
                   /\ fle (PL.Intensity l) (Fin 0) = false)
    (PointLights m)
  /\ IncludedPointLights (ForgivenessBuffer m) (Scenes.V 0 0 0)
       (PointLights m) = 2%nat
  /\ IlluminanceTotal
       (CheckPointLights (set_IlluminanceTotal m (Fin 0)) (Scenes.V 0 0 0))
     = Fin 1.
Proof.
  intro m.
  assert (Hall : Forall (fun l => PL.IsVisible l = true
                                  /\ fle (PL.Intensity l) (Fin 0) = false)
                   (PointLights m)).
  { repeat constructor. }
  split; [exact Hall|]. split; [reflexivity|].
  exact (proj1 (point_pass_total_is_binary_and_monotone m (Scenes.V 0 0 0)
                  Hall)).
Defined.

(** ** C3 *)

(** The three ways through the choice of the detection point. *)
Lemma ResolveDetectionPoint_cases (H : Host) (P : FVector) :
  match LineTraceSingleByChannel H P (vadd P (vscale DownVector (Fin 100)))
          ECC_GameTraceChannel5 with
  | Some hit =>
      if flt (Distance H (Location hit) P) (Fin 98)
      then ResolveDetectionPoint H P
           = vadd (Location hit) (vscale UpVector (Fin 10))
      else ResolveDetectionPoint H P = Uninitialized H
  | None =>
      ResolveDetectionPoint H P = vadd P (vscale DownVector (Fin 93.980003))
  end.
Proof.
  unfold ResolveDetectionPoint.
  destruct (LineTraceSingleByChannel H P _ ECC_GameTraceChannel5) as [hit|];
    [|reflexivity].
  now destruct (flt (Distance H (Location hit) P) (Fin 98)).
Qed.

(** C3 (the code departs from the claim).  The claim: when the floor probe
    hits at a distance >= 98 the sampling point is [P - 93.98 * up].  In
    the code the [else] belongs to the test of the probe, not to the test
    of the distance: with the subject at height 100 above a floor at height
    1 the probe hits at distance 99, [DetectionPoint] is never assigned and
    the evaluators receive whatever the uninitialised local holds, which is
    not the foot point (0, 0, 6.019997). *)
Theorem ResolveDetectionPoint_unassigned_when_floor_at_99 :
  let P := Scenes.V 0 0 100 in
  (forall u,
     LineTraceSingleByChannel (Scenes.low_floor u) P
       (vadd P (vscale DownVector (Fin 100))) ECC_GameTraceChannel5
     = Some (mkFHitResult (Scenes.V 0 0 1)))
  /\ (forall u, Distance (Scenes.low_floor u) (Scenes.V 0 0 1) P = Fin 99)
  /\ (forall u, ResolveDetectionPoint (Scenes.low_floor u) P = u)
  /\ vadd P (vscale DownVector (Fin 93.980003)) = Scenes.V 0 0 6.019997
  /\ ResolveDetectionPoint (Scenes.low_floor (Scenes.V 7 7 7)) P
     <> vadd P (vscale DownVector (Fin 93.980003)).
Proof.
  repeat split; try (intro u; vm_compute; reflexivity).
  vm_compute. discriminate.
Qed.

(** ** C4 *)

(** C4, the claim as stated fails: a visible spot light of intensity 10 and
    outer cone angle 30, in a world without occluders, with the sample point
    at its apex (0, 0, 200), is not included: the iteration skips it and the
    evaluation ends with [IlluminanceTotal = 0]. *)
Lemma spot_light_at_apex_is_skipped :
  let apex := SL.GetLightPosition Scenes.spot in
  let m :=
    Scenes.manager (Scenes.subject (Scenes.V 0 0 293.980003)) []
      [Scenes.spot] (Fin 0) in
  SL.IsVisible Scenes.spot = true
  /\ fle (SL.Intensity Scenes.spot) (Fin 0) = false
  /\ LineTraceSingleByChannel Scenes.open_air apex apex ECC_GameTraceChannel5
     = None
  /\ ResolveDetectionPoint Scenes.open_air (Scenes.V 0 0 293.980003) = apex
  /\ SpotLightStep Scenes.open_air (Fin 0) apex Scenes.spot = Skip
  /\ IlluminanceTotal (manager_of (UpdateDetection Scenes.open_air m))
     = Fin 0.
Proof.
  vm_compute. repeat split; reflexivity.
Qed.

(** C4 (amended).  When the sample point coincides with the apex of a spot
    light (position and forward vector finite), the displacement is the zero
    vector; on a host whose [GetSafeNormal] maps the zero vector to itself,
    the angle to the subject is [Acos 0 * (180 / PI)], and whenever this
    exceeds the outer cone angle of the light the iteration skips the light:
    the loop goes on to the next spot light with [IlluminanceTotal]
    unchanged. *)
Theorem SpotLightStep_at_apex_skips
  (H : Host) (buffer : float) (l : SL.t) :
  finite_vector (SL.GetLightPosition l) ->
  finite_vector (SL.GetForwardVector l) ->
  GetSafeNormal H ZeroVector = ZeroVector ->
  fgt (fmul (Acos H (Fin 0)) (fdiv (Fin 180) PI)) (SL.OuterConeAngle l)
  = true ->
  SpotLightStep H buffer (SL.GetLightPosition l) l = Skip
  /\ (forall rest total,
        SpotLightsLoop H buffer (SL.GetLightPosition l) (l :: rest) total
        = SpotLightsLoop H buffer (SL.GetLightPosition l) rest total).
Proof.
  intros Hpos Hdir Hsafe Hangle.
  assert (Hstep : SpotLightStep H buffer (SL.GetLightPosition l) l = Skip).
  { unfold SpotLightStep.
    destruct (SL.IsVisible l); [|reflexivity]. cbn [negb].
    rewrite (vsub_self _ Hpos), Hsafe, (DotProduct_zero_r _ Hdir), Hangle.
    match goal with
    | |- (if ?c then _ else _) = _ => destruct c; reflexivity
    end. }
  split; [exact Hstep|].
  intros rest total. cbn [SpotLightsLoop]. now rewrite Hstep.
Qed.

(** The amended C4 at the spot light of the scene, on the reference host. *)
Lemma SpotLightStep_at_apex_skips_witness :
  SpotLightStep Scenes.open_air (Fin 0) (SL.GetLightPosition Scenes.spot)
    Scenes.spot = Skip.
Proof.
  refine (proj1 (SpotLightStep_at_apex_skips Scenes.open_air (Fin 0)
                   Scenes.spot _ _ _ _)).
  - repeat split; eexists; reflexivity.
  - repeat split; eexists; reflexivity.
  - reflexivity.
  - vm_compute. reflexivity.
Defined.

(** ** C5 *)

Lemma TArray_set_length {A : Type} (l : list A) (i : nat) (v : A) :
  List.length (TArray_set l i v) = List.length l.
Proof.
  revert i. induction l as [|hd tl IH]; intros [|j]; simpl; auto.
Qed.

Lemma shape_set_pt w i v : shape (set_pt w i v) = shape w.
Proof.
  unfold shape, set_pt. cbn [FrustumPoints BoundingPlanes].
  now rewrite TArray_set_length.
Qed.

Lemma shape_set_plane w i p : shape (set_plane w i p) = shape w.
Proof.
  unfold shape, set_plane. cbn [FrustumPoints BoundingPlanes].
  now rewrite TArray_set_length.
Qed.

(** The two functions are chains of local bindings; the bindings are moved
    to the context one by one, so that no binding is ever duplicated. *)
Ltac walk_lets :=
  repeat lazymatch goal with
  | |- shape (let x := ?v in @?b x) = ?r =>
      change (let x := v in shape (b x) = r); intro
  end.

Ltac unwind_sets :=
  repeat (first [rewrite shape_set_pt | rewrite shape_set_plane];
          try lazymatch goal with
            | |- shape ?x = _ => is_var x; unfold x
            end).

Lemma CalculateFrustumPoints_shape (H : Host) (w : RectLightWrapper) :
  shape (CalculateFrustumPoints H w) = shape w.
Proof.
  unfold CalculateFrustumPoints. walk_lets. unwind_sets. reflexivity.
Qed.

Lemma CalculateBoundingPlanes_shape (H : Host) (w : RectLightWrapper) :
  shape (CalculateBoundingPlanes H w) = shape w.
Proof.
  unfold CalculateBoundingPlanes. walk_lets. unwind_sets. reflexivity.
Qed.

(** Recomputing the frustum keeps the 8 points and the 4 planes that the
    constructor of the wrapper allocates. *)
Lemma Recalculate_shape (H : Host) (l : RL.t) :
  shape (Recalculate H (RectLightWrapper_new l)) = (8%nat, 4%nat).
Proof.
  unfold Recalculate.
  now rewrite CalculateBoundingPlanes_shape, CalculateFrustumPoints_shape.
Qed.

(** A rect light that is hidden ends the loop, as a hidden point light
    does. *)
Lemma RectLightStep_hidden (H : Host) (buffer : float) (P : FVector)
  (w : RectLightWrapper) :
  RL.IsVisible (RectLight w) = false ->
  RectLightStep H buffer P w = (w, Return).
Proof.
  intro Hw. unfold RectLightStep. now rewrite Hw.
Qed.


(** ** C6 *)

(** C6, the claim as stated fails: the engine's [float] is binary32, and
    with a previous [IlluminanceTotal] of 2^24 and a visible, unoccluded
    directional light of intensity 1 the call leaves the total at 2^24, so
    the amount added is 0 and not the intensity; with the intensity doubled
    to 2 the amount added is 2, which is not the double of 0. *)
Lemma directional_light_adds_nothing_to_a_large_total :
  let total := Binary32.of_Z 16777216 in
  let m := Binary32.scene total (Binary32.of_Z 1) in
  Binary32.CheckDirectionalLight Binary32.open_air m = Binary32.Done m
  /\ Binary32.Contribution Binary32.open_air m = S754_zero false
  /\ Binary32.Contribution Binary32.open_air m
     <> Binary32.Intensity (Binary32.sun (Binary32.of_Z 1))
  /\ Binary32.MainDirectionalLight (Binary32.DoubleIntensity m)
     = Some (Binary32.sun (Binary32.of_Z 2))
  /\ Binary32.Contribution Binary32.open_air (Binary32.DoubleIntensity m)
     = Binary32.of_Z 2
  /\ Binary32.Contribution Binary32.open_air (Binary32.DoubleIntensity m)
     <> Binary32.mul (Binary32.of_Z 2)
          (Binary32.Contribution Binary32.open_air m).
Proof.
  vm_compute. repeat split; try reflexivity; discriminate.
Qed.

(** C6 (amended).  With a directional light that is present and visible, a
    subject, and the probe ray from [PlayerPosition - LightDirection * 5000]
    to the subject's location free on the visibility channel,
    [CheckDirectionalLight] performs one binary32 addition: the new
    [IlluminanceTotal] is the rounded sum of the old one and the intensity.
    When the old total is 0 and the intensity is a finite non-zero number,
    the new total and the amount added equal the intensity exactly, and
    with the intensity doubled (the double being finite) the amount added
    is the double. *)
Theorem CheckDirectionalLight_adds_intensity_binary32
  (trace : Binary32.FVector32 -> Binary32.FVector32 -> ECollisionChannel
           -> bool)
  (m : Binary32.Manager) (light : Binary32.UDirectionalLightComponent)
  (player : Binary32.FVector32) :
  Binary32.MainDirectionalLight m = Some light ->
  Binary32.IsVisible light = true ->
  Binary32.Player m = Some player ->
  trace
    (Binary32.vsub32 player
       (Binary32.vscale32 (Binary32.GetForwardVector light)
          (Binary32.of_Z 5000)))
    player ECC_Visibility = false ->
  Binary32.CheckDirectionalLight trace m
  = Binary32.Done
      (Binary32.set_IlluminanceTotal m
         (Binary32.add (Binary32.IlluminanceTotal m)
            (Binary32.Intensity light)))
  /\ (forall s mi ei,
        Binary32.IlluminanceTotal m = S754_zero false ->
        Binary32.Intensity light = S754_finite s mi ei ->
        Binary32.IlluminanceTotal
          (Binary32.manager_of (Binary32.CheckDirectionalLight trace m))
        = Binary32.Intensity light
        /\ Binary32.Contribution trace m = Binary32.Intensity light
        /\ (forall s2 m2 e2,
              Binary32.mul (Binary32.of_Z 2) (Binary32.Intensity light)
              = S754_finite s2 m2 e2 ->
              Binary32.Contribution trace (Binary32.DoubleIntensity m)
              = Binary32.mul (Binary32.of_Z 2)
                  (Binary32.Contribution trace m))).
Proof.
  intros Hlight Hvis Hplayer Hfree.
  assert (Hrun : Binary32.CheckDirectionalLight trace m
                 = Binary32.Done
                     (Binary32.set_IlluminanceTotal m
                        (Binary32.add (Binary32.IlluminanceTotal m)
                           (Binary32.Intensity light)))).
  { unfold Binary32.CheckDirectionalLight.
    now rewrite Hlight, Hvis, Hplayer, Hfree. }
  split; [exact Hrun|].
  intros s mi ei Hzero Hi.
  assert (Hone : Binary32.Contribution trace m = Binary32.Intensity light).
  { unfold Binary32.Contribution. rewrite Hrun.
    cbn [Binary32.manager_of Binary32.set_IlluminanceTotal
           Binary32.IlluminanceTotal].
    now rewrite Hzero, Hi. }
  split; [|split; [exact Hone|]].
  - rewrite Hrun.
    cbn [Binary32.manager_of Binary32.set_IlluminanceTotal
           Binary32.IlluminanceTotal].
    now rewrite Hzero, Hi.
  - intros s2 m2 e2 Hdouble. rewrite Hone.
    unfold Binary32.Contribution, Binary32.CheckDirectionalLight,
      Binary32.DoubleIntensity.
    cbn [Binary32.MainDirectionalLight Binary32.Player
           Binary32.IlluminanceTotal].
    rewrite Hlight.
    cbn [option_map Binary32.IsVisible Binary32.GetForwardVector
           Binary32.Intensity].
    rewrite Hvis, Hplayer, Hfree.
    cbn [negb Binary32.manager_of Binary32.set_IlluminanceTotal
           Binary32.IlluminanceTotal].
    now rewrite Hzero, Hdouble.
Qed.

(** The amended C6 at a directional light of intensity 3 and a previous
    total of 0. *)
Lemma CheckDirectionalLight_adds_intensity_binary32_witness :
  let m := Binary32.scene (S754_zero false) (Binary32.of_Z 3) in
  Binary32.Contribution Binary32.open_air m = Binary32.of_Z 3
  /\ Binary32.Contribution Binary32.open_air (Binary32.DoubleIntensity m)
     = Binary32.of_Z 6.
Proof.
  intro m.
  destruct (CheckDirectionalLight_adds_intensity_binary32 Binary32.open_air
              m (Binary32.sun (Binary32.of_Z 3)) Binary32.origin
              eq_refl eq_refl eq_refl eq_refl) as [_ Hzero].
  destruct (Hzero false 12582912%positive (-22)%Z eq_refl eq_refl)
    as (_ & Hone & Htwo).
  split; [exact Hone|].
  rewrite (Htwo false 12582912%positive (-21)%Z eq_refl), Hone.
  reflexivity.
Defined.

(** ** C7 *)

Lemma UpdateDetection_keeps_frequency (H : Host) (m : ALightDetectionManager) :
  UpdateFrequency (manager_of (UpdateDetection H m)) = UpdateFrequency m.
Proof.
  unfold UpdateDetection. destruct m as [[c|] ps ss rs d t f u b]; reflexivity.
Qed.

(** The log of a frame: one call of [UpdateDetection] when the decremented
    timer is <= 0, none otherwise. *)
Lemma Tick_log (H : Host) (m : ALightDetectionManager) (dt : float) :
  fst (Tick H m dt)
  = if fle (fsub (UpdateTimer m) dt) (Fin 0) then [EvUpdateDetection] else [].
Proof.
  unfold Tick. cbn [UpdateTimer set_UpdateTimer].
  destruct (fle (fsub (UpdateTimer m) dt) (Fin 0)); [|reflexivity].
  now destruct (UpdateDetection H _).
Qed.

(** C7.  A frame with delta-time [dt] decrements the timer by [dt]; it runs
    one evaluation if and only if the decremented timer is <= 0, and then
    (the subject being present) resets the timer to [1 / UpdateFrequency];
    otherwise it only stores the decremented timer.  A frame never runs
    more than one evaluation. *)
Theorem Tick_evaluates_iff_timer_elapsed
  (H : Host) (m : ALightDetectionManager) (dt : float) :
  let t := fsub (UpdateTimer m) dt in
  (fst (Tick H m dt) = [EvUpdateDetection] <-> fle t (Fin 0) = true)
  /\ (List.length (fst (Tick H m dt)) <= 1)%nat
  /\ (fle t (Fin 0) = true ->
      forall player, Player m = Some player ->
      exists m1,
        UpdateDetection H (set_UpdateTimer m t) = Done m1
        /\ snd (Tick H m dt)
           = Done (set_UpdateTimer m1 (fdiv (Fin 1) (UpdateFrequency m))))
  /\ (fle t (Fin 0) = false ->
      Tick H m dt = ([], Done (set_UpdateTimer m t))).
Proof.
  intro t. rewrite Tick_log. fold t.
  pose proof (UpdateDetection_keeps_frequency H (set_UpdateTimer m t)) as Hf.
  unfold Tick. cbn [UpdateTimer set_UpdateTimer]. fold t.
  destruct (fle t (Fin 0)) eqn:Hle.
  - split; [now split|]. split; [apply Nat.le_refl|].
    split; [|discriminate].
    intros _ player Hplayer.
    destruct (UpdateDetection H (set_UpdateTimer m t)) as [m1|m1] eqn:Hrun.
    + exists m1. split; [reflexivity|].
      cbn [manager_of] in Hf. now rewrite Hf.
    + exfalso. revert Hrun. unfold UpdateDetection.
      cbn [Player set_IlluminanceTotal set_UpdateTimer].
      now rewrite Hplayer.
  - split; [split; discriminate|]. split; [apply Nat.le_0_l|].
    split; [discriminate|reflexivity].
Qed.

(** C7 at a timer of 1/50: a frame of 1/50 evaluates and resets the timer,
    a frame of 1/100 does not. *)
Lemma Tick_evaluates_iff_timer_elapsed_witness :
  let m :=
    Scenes.manager (Scenes.subject (Scenes.V 0 0 93.980003))
      [Scenes.lit_point] [] (Fin 0) in
  fst (Tick Scenes.open_air m (Fin (1 # 50))) = [EvUpdateDetection]
  /\ Tick Scenes.open_air m (Fin (1 # 100))
     = ([], Done (set_UpdateTimer m (Fin (1 # 100))))
  /\ exists m1,
       snd (Tick Scenes.open_air m (Fin (1 # 50)))
       = Done (set_UpdateTimer m1 (Fin (1 # 50)))
       /\ IlluminanceTotal m1 = Fin 1.
Proof.
  intro m.
  pose proof (Tick_evaluates_iff_timer_elapsed Scenes.open_air m
                (Fin (1 # 50))) as (Hfire & _ & Hreset & _).
  pose proof (Tick_evaluates_iff_timer_elapsed Scenes.open_air m
                (Fin (1 # 100))) as (_ & _ & _ & Hidle).
  split; [apply Hfire; reflexivity|].
  split; [apply Hidle; reflexivity|].
  destruct (Hreset eq_refl (mkCharacter (Scenes.V 0 0 93.980003)) eq_refl)
    as (m1 & Hrun & Htick).
  exists m1. split; [exact Htick|].
  injection Hrun as <-. reflexivity.
Defined.

(** ** C8 *)

Lemma Qinv_neg (f : Q) : f < 0 -> / f < 0.
Proof.
  destruct f as [[|p|p] d]; unfold Qlt, Qinv; simpl; lia.
Qed.

(** C8, the claim as stated fails: with [UpdateFrequency = -1],
    [BeginPlay] reports nothing and proceeds to set the timer to
    [1 / UpdateFrequency = -1], and the next frame runs an evaluation to its
    end. *)
Lemma BeginPlay_accepts_negative_frequency :
  let m :=
    Scenes.with_frequency (Scenes.manager None [] [] (Fin 0)) (Fin (-1)) in
  let m' := BeginPlay Scenes.empty_world m in
  fle (UpdateFrequency m) (Fin 0) = true
  /\ UpdateTimer m' = Fin (-1)
  /\ fst (Tick Scenes.open_air m' (Fin (1 # 60))) = [EvUpdateDetection]
  /\ snd (Tick Scenes.open_air m' (Fin (1 # 60)))
     = Done (set_IlluminanceTotal m' (Fin 0)).
Proof.
  vm_compute. repeat split; reflexivity.
Qed.

(** C8 (amended).  [BeginPlay] does not examine [UpdateFrequency]: for
    every value, also one that is <= 0, it returns a manager whose timer is
    [1 / UpdateFrequency] and whose frequency is unchanged; and when
    [UpdateFrequency] is negative, the next frame (of delta-time >= 0) runs
    an evaluation. *)
Theorem BeginPlay_sets_period_for_every_frequency
  (world : Scene) (m : ALightDetectionManager) :
  UpdateTimer (BeginPlay world m) = fdiv (Fin 1) (UpdateFrequency m)
  /\ UpdateFrequency (BeginPlay world m) = UpdateFrequency m
  /\ (forall H f dt,
        UpdateFrequency m = Fin f -> f < 0 -> 0 <= dt ->
        fst (Tick H (BeginPlay world m) (Fin dt)) = [EvUpdateDetection]).
Proof.
  assert (Htimer : UpdateTimer (BeginPlay world m)
                   = fdiv (Fin 1) (UpdateFrequency m)).
  { unfold BeginPlay. now destruct (CollectLights _ _ _). }
  split; [exact Htimer|]. split.
  - unfold BeginPlay. now destruct (CollectLights _ _ _).
  - intros H f dt Hf Hneg Hdt.
    rewrite Tick_log, Htimer, Hf.
    enough (Hle : fle (fsub (fdiv (Fin 1) (Fin f)) (Fin dt)) (Fin 0) = true)
      by now rewrite Hle.
    unfold fdiv.
    assert (Hnz : Qeq_bool f 0 = false).
    { apply not_true_is_false. intro E. apply Qeq_bool_iff in E.
      rewrite E in Hneg. now apply Qlt_irrefl in Hneg. }
    rewrite Hnz. unfold fsub, fle. apply Qle_bool_iff.
    rewrite !Qred_correct. unfold Qdiv. rewrite Qmult_1_l.
    pose proof (Qinv_neg f Hneg) as Hinv. lra.
Qed.

(** The amended C8 at [UpdateFrequency = -2]. *)
Lemma BeginPlay_sets_period_for_every_frequency_witness :
  let m :=
    Scenes.with_frequency (Scenes.manager None [] [] (Fin 0)) (Fin (-2)) in
  fst (Tick Scenes.open_air (BeginPlay Scenes.empty_world m) (Fin (1 # 60)))
  = [EvUpdateDetection].
Proof.
  intro m.
  refine (proj2 (proj2 (BeginPlay_sets_period_for_every_frequency
                          Scenes.empty_world m))
            Scenes.open_air (-2) (1 # 60) eq_refl _ _).
  - reflexivity.
  - discriminate.
Defined.

(** ** C9 *)

(** C9, the claim as stated fails: with a null subject and a previous
    [IlluminanceTotal] of 1, a frame on which the timer runs out does not
    keep the value 1: [UpdateDetection] first writes 0 and then dereferences
    the null subject. *)
Lemma UpdateDetection_null_player_resets_total :
  let m := Scenes.manager None [Scenes.lit_point] [] (Fin 1) in
  Player m = None
  /\ IlluminanceTotal m = Fin 1
  /\ UpdateDetection Scenes.open_air m
     = AccessViolation (set_IlluminanceTotal m (Fin 0))
  /\ snd (Tick Scenes.open_air m (Fin (1 # 50)))
     = AccessViolation
         (set_IlluminanceTotal (set_UpdateTimer m (Fin 0)) (Fin 0))
  /\ IlluminanceTotal
       (manager_of (snd (Tick Scenes.open_air m (Fin (1 # 50)))))
     <> IlluminanceTotal m.
Proof.
  vm_compute. repeat split; try reflexivity. discriminate.
Qed.

(** C9 (amended).  With a null subject, [UpdateDetection] has no test of the
    handle: it sets [IlluminanceTotal] to 0 and then dereferences the
    subject, before any light is looked at.  A frame on which the timer does
    not run out performs no evaluation and leaves [IlluminanceTotal] as it
    was. *)
Theorem UpdateDetection_null_player_faults_after_reset
  (H : Host) (m : ALightDetectionManager) :
  Player m = None ->
  UpdateDetection H m = AccessViolation (set_IlluminanceTotal m (Fin 0))
  /\ (forall dt,
        let t := fsub (UpdateTimer m) dt in
        (fle t (Fin 0) = true ->
         snd (Tick H m dt)
         = AccessViolation
             (set_IlluminanceTotal (set_UpdateTimer m t) (Fin 0)))
        /\ (fle t (Fin 0) = false ->
            Tick H m dt = ([], Done (set_UpdateTimer m t))
            /\ IlluminanceTotal (manager_of (snd (Tick H m dt)))
               = IlluminanceTotal m)).
Proof.
  intro Hnull.
  assert (Hrun : forall m', Player m' = None ->
            UpdateDetection H m'
            = AccessViolation (set_IlluminanceTotal m' (Fin 0))).
  { intros m' Hm'. unfold UpdateDetection.
    cbn [Player set_IlluminanceTotal]. now rewrite Hm'. }
  split; [now apply Hrun|].
  intros dt t. unfold Tick. cbn [UpdateTimer set_UpdateTimer]. fold t.
  split; intros ->.
  - now rewrite (Hrun (set_UpdateTimer m t) Hnull).
  - split; reflexivity.
Qed.

(** The amended C9 at a manager without subject. *)
Lemma UpdateDetection_null_player_faults_after_reset_witness :
  let m := Scenes.manager None [Scenes.lit_point] [] (Fin 1) in
  UpdateDetection Scenes.open_air m
  = AccessViolation (set_IlluminanceTotal m (Fin 0)).
Proof.
  intro m.
  exact (proj1 (UpdateDetection_null_player_faults_after_reset
                  Scenes.open_air m eq_refl)).
Defined.

(** ** C10 *)

(** C10.  After an evaluation by [UpdateDetection], whatever the catalog of
    point and spot lights and whatever the ray casts answer,
    [IlluminanceTotal] is 0 or 1: an included point light and an included
    spot light assign 1 to the running total, whatever it was; and the
    result does not depend on the rect lights or on the directional light,
    which the orchestrator never evaluates. *)
Theorem UpdateDetection_total_is_zero_or_one
  (H : Host) (m : ALightDetectionManager) :
  let total := IlluminanceTotal (manager_of (UpdateDetection H m)) in
  (total = Fin 0 \/ total = Fin 1)
  /\ (forall buffer P l rest running,
        PointLightStep buffer P l = Include ->
        PointLightsLoop buffer P (l :: rest) running
        = PointLightsLoop buffer P rest (Fin 1))
  /\ (forall buffer P l rest running,
        SpotLightStep H buffer P l = Include ->
        SpotLightsLoop H buffer P (l :: rest) running
        = SpotLightsLoop H buffer P rest (Fin 1))
  /\ (forall rects directional,
        IlluminanceTotal
          (manager_of
             (UpdateDetection H
                (set_MainDirectionalLight (set_RectLights m rects)
                   directional)))
        = total).
Proof.
  unfold UpdateDetection. destruct m as [player ps ss rs d t f u b].
  simpl. split; [|split; [|split]].
  - destruct player as [c|]; simpl; [|now left].
    destruct (SpotLightsLoop_cases H b
                (ResolveDetectionPoint H (GetActorLocation c)) ss
                (PointLightsLoop b
                   (ResolveDetectionPoint H (GetActorLocation c)) ps (Fin 0)))
      as [E|E]; [|now right].
    rewrite E. apply PointLightsLoop_cases.
  - intros buffer P l rest running ->. reflexivity.
  - intros buffer P l rest running ->. reflexivity.
  - intros rects directional. destruct player; reflexivity.
Qed.

(** C10 at a scene with two point lights in range and a spot light above
    the subject: every one of them is included, and the total is 1. *)
Lemma UpdateDetection_total_is_zero_or_one_witness :
  let m :=
    Scenes.manager (Scenes.subject (Scenes.V 0 0 93.980003))
      [Scenes.lit_point; Scenes.lit_point] [Scenes.spot] (Fin 7) in
  PointLightStep (Fin 0) (Scenes.V 0 0 0) Scenes.lit_point = Include
  /\ SpotLightStep Scenes.open_air (Fin 0) (Scenes.V 0 0 0) Scenes.spot
     = Include
  /\ PointLightsLoop (Fin 0) (Scenes.V 0 0 0) [Scenes.lit_point] (Fin 7)
     = Fin 1
  /\ SpotLightsLoop Scenes.open_air (Fin 0) (Scenes.V 0 0 0) [Scenes.spot]
       (Fin 7) = Fin 1
  /\ IlluminanceTotal (manager_of (UpdateDetection Scenes.open_air m))
     = Fin 1.
Proof.
  intro m.
  assert (Hp : PointLightStep (Fin 0) (Scenes.V 0 0 0) Scenes.lit_point
               = Include) by (vm_compute; reflexivity).
  assert (Hs : SpotLightStep Scenes.open_air (Fin 0) (Scenes.V 0 0 0)
                 Scenes.spot = Include) by (vm_compute; reflexivity).
  destruct (UpdateDetection_total_is_zero_or_one Scenes.open_air m)
    as (_ & Hpoint & Hspot & _).
  split; [exact Hp|]. split; [exact Hs|].
  split; [exact (Hpoint _ _ _ [] (Fin 7) Hp)|].
  split; [exact (Hspot _ _ _ [] (Fin 7) Hs)|].
  vm_compute; reflexivity.
Defined.

(** * Further properties *)

(** ** Finite scalars *)

Lemma flt_Fin (a b : Q) : flt (Fin a) (Fin b) = true <-> a < b.
Proof.
  unfold flt. rewrite negb_true_iff. split.
  - intro Hf. apply Qnot_le_lt. intro Hle. apply Qle_bool_iff in Hle.
    congruence.
  - intro Hlt. apply not_true_is_false. intro Hle.
    apply Qle_bool_iff in Hle. lra.
Qed.

Lemma flt_Fin_false (a b : Q) : flt (Fin a) (Fin b) = false <-> b <= a.
Proof.
  unfold flt. rewrite negb_false_iff. apply Qle_bool_iff.
Qed.

Lemma fle_Fin (a b : Q) : fle (Fin a) (Fin b) = true <-> a <= b.
Proof. apply Qle_bool_iff. Qed.

Lemma Qsquare_nonneg (q : Q) : 0 <= q * q.
Proof.
  destruct q as [n d]. unfold Qle, Qmult. simpl. nia.
Qed.

(** The squared distance of two finite points is a non-negative rational. *)
Lemma DistSquared_finite (a b : FVector) :
  finite_vector a -> finite_vector b ->
  exists q, DistSquared a b = Fin q /\ 0 <= q.
Proof.
  intros ([ax Hax] & [ay Hay] & [az Haz]) ([bx Hbx] & [by' Hby] & [bz Hbz]).
  unfold DistSquared. rewrite Hax, Hay, Haz, Hbx, Hby, Hbz.
  unfold fsub, fmul, fadd. eexists. split; [reflexivity|].
  rewrite !Qred_correct.
  pose proof (Qsquare_nonneg (bx - ax)). pose proof (Qsquare_nonneg (by' - ay)).
  pose proof (Qsquare_nonneg (bz - az)). lra.
Qed.

Lemma DistSquared_self (a : FVector) :
  finite_vector a -> DistSquared a a = Fin 0.
Proof.
  intros (Hx & Hy & Hz). unfold DistSquared.
  rewrite !fsub_self by assumption. reflexivity.
Qed.

(** ** BeginPlay *)

Lemma CollectLights_appends (actors : list AActor) : forall points spots,
  CollectLights actors points spots
  = (points ++ flat_map PointLightsOf actors,
     spots ++ flat_map SpotLightsOf actors).
Proof.
  induction actors as [|a rest IH]; intros points spots; simpl.
  - now rewrite !app_nil_r.
  - unfold PointLightsOf at 1, SpotLightsOf at 1.
    destruct (ActorHasTag a "Point Light").
    + destruct (PointLightComponent a); rewrite IH; simpl;
        now rewrite <- ?app_assoc.
    + destruct (ActorHasTag a "Spot Light");
        [destruct (SpotLightComponent a)|]; rewrite IH; simpl;
        now rewrite <- ?app_assoc.
Qed.

(** X1.  [BeginPlay] keeps the lights that the two catalogs already hold
    and appends, in the order of the actors, the point light component of
    every actor tagged "Point Light" and the spot light component of every
    actor tagged "Spot Light" and not "Point Light"; it stores the player
    character and leaves the rect lights, the directional light and
    [IlluminanceTotal] as they are. *)
Theorem BeginPlay_appends_in_actor_order
  (world : Scene) (m : ALightDetectionManager) :
  PointLights (BeginPlay world m)
  = PointLights m ++ flat_map PointLightsOf (Actors world)
  /\ SpotLights (BeginPlay world m)
     = SpotLights m ++ flat_map SpotLightsOf (Actors world)
  /\ Player (BeginPlay world m) = GetPlayerCharacter world
  /\ RectLights (BeginPlay world m) = RectLights m
  /\ MainDirectionalLight (BeginPlay world m) = MainDirectionalLight m
  /\ IlluminanceTotal (BeginPlay world m) = IlluminanceTotal m.
Proof.
  unfold BeginPlay. rewrite CollectLights_appends. cbn. repeat split.
Qed.

(** X2.  In a world where every actor carries the tag "Point Light",
    [BeginPlay] registers no spot light, whatever other tags and components
    the actors have: the test for "Spot Light" is the [else] of the test
    for "Point Light". *)
Theorem BeginPlay_point_tag_hides_spot_light
  (world : Scene) (m : ALightDetectionManager) :
  Forall (fun a => ActorHasTag a "Point Light" = true) (Actors world) ->
  SpotLights (BeginPlay world m) = SpotLights m.
Proof.
  intro Hall. unfold BeginPlay. rewrite CollectLights_appends.
  cbn [SpotLights].
  induction Hall as [|a rest Ha _ IH]; simpl.
  - apply app_nil_r.
  - unfold SpotLightsOf at 1. rewrite Ha. exact IH.
Qed.

(** X2 at a world whose only actor is tagged "Point Light" and
    "Spot Light" and has a spot light component. *)
Lemma BeginPlay_point_tag_hides_spot_light_witness :
  SpotLightComponent World.mistagged = Some Scenes.spot
  /\ SpotLights
       (BeginPlay (mkScene None [World.mistagged])
          (Scenes.manager None [] [] (Fin 0))) = [].
Proof.
  split; [reflexivity|].
  refine (BeginPlay_point_tag_hides_spot_light
            (mkScene None [World.mistagged])
            (Scenes.manager None [] [] (Fin 0)) _).
  repeat constructor.
Defined.

Lemma flat_map_length_le {A B : Type} (f : A -> list B) (l : list A) :
  (forall a, List.length (f a) <= 1)%nat ->
  (List.length (flat_map f l) <= List.length l)%nat.
Proof.
  intro Hf. induction l as [|a l IH]; simpl; [lia|].
  rewrite length_app. specialize (Hf a). lia.
Qed.

(** X3.  Every actor of the world adds at most one light to the catalogs:
    after [BeginPlay] the two catalogs together hold at most as many new
    lights as the world has actors, and neither catalog shrinks. *)
Theorem BeginPlay_registers_at_most_one_light_per_actor
  (world : Scene) (m : ALightDetectionManager) :
  (List.length (PointLights (BeginPlay world m))
   + List.length (SpotLights (BeginPlay world m))
   <= List.length (PointLights m) + List.length (SpotLights m)
      + List.length (Actors world))%nat
  /\ (List.length (PointLights m)
      <= List.length (PointLights (BeginPlay world m)))%nat
  /\ (List.length (SpotLights m)
      <= List.length (SpotLights (BeginPlay world m)))%nat.
Proof.
  unfold BeginPlay. rewrite CollectLights_appends.
  cbn [PointLights SpotLights]. rewrite !length_app.
  assert (Hsum : (List.length (flat_map PointLightsOf (Actors world))
                  + List.length (flat_map SpotLightsOf (Actors world))
                  <= List.length (Actors world))%nat).
  { induction (Actors world) as [|a l IH]; simpl; [lia|].
    rewrite !length_app. unfold PointLightsOf at 1, SpotLightsOf at 1.
    destruct (ActorHasTag a "Point Light");
      [destruct (PointLightComponent a)
      |destruct (ActorHasTag a "Spot Light");
       [destruct (SpotLightComponent a)|]]; simpl; lia. }
  lia.
Qed.

(** ** UpdateDetection *)

Lemma SpotLightStep_never_returns H buffer P l :
  SpotLightStep H buffer P l <> Return.
Proof.
  unfold SpotLightStep.
  repeat match goal with
         | |- context [if ?c then _ else _] => destruct c
         | |- context [match ?c with Some _ => _ | None => _ end] =>
             destruct c
         end; discriminate.
Qed.

(** The spot-light pass ends with 1 when some spot light of the catalog is
    included, and with the total it started from otherwise. *)
Lemma SpotLightsLoop_exists H buffer P lights total :
  SpotLightsLoop H buffer P lights total
  = if existsb (fun l => is_Include (SpotLightStep H buffer P l)) lights
    then Fin 1 else total.
Proof.
  revert total. induction lights as [|l rest IH]; intro total; simpl;
    [reflexivity|].
  pose proof (SpotLightStep_never_returns H buffer P l) as Hl.
  destruct (SpotLightStep H buffer P l); simpl.
  - now elim Hl.
  - apply IH.
  - rewrite IH. now destruct (existsb _ rest).
Qed.

(** The point-light pass from 0 ends with 1 exactly when the catalog has an
    included light with only skipped lights in front of it. *)
Lemma PointLightsLoop_one_iff buffer P lights :
  PointLightsLoop buffer P lights (Fin 0) = Fin 1
  <-> exists front l back,
        lights = front ++ l :: back
        /\ Forall (fun x => PointLightStep buffer P x = Skip) front
        /\ PointLightStep buffer P l = Include.
Proof.
  induction lights as [|x rest IH]; simpl.
  - split; [discriminate|].
    intros (front & l & back & Heq & _). now destruct front.
  - destruct (PointLightStep buffer P x) eqn:Hx.
    + split; [discriminate|].
      intros (front & l & back & Heq & Hfront & Hl).
      destruct front as [|y front]; injection Heq as -> ->.
      * congruence.
      * inversion Hfront; congruence.
    + rewrite IH. split.
      * intros (front & l & back & -> & Hfront & Hl).
        exists (x :: front), l, back. repeat split; auto.
      * intros (front & l & back & Heq & Hfront & Hl).
        destruct front as [|y front]; injection Heq as -> ->.
        -- congruence.
        -- inversion Hfront; subst. now exists front, l, back.
    + rewrite PointLightsLoop_one. split; [|reflexivity].
      intros _. exists [], x, rest. repeat split; auto.
Qed.

(** X5.  With a subject, an evaluation ends with [IlluminanceTotal = 1]
    exactly when some spot light is included at the detection point, or
    some point light is included there and every point light in front of it
    in the catalog is skipped by the range test; otherwise it ends with
    0. *)
Theorem UpdateDetection_total_is_one_iff
  (H : Host) (m : ALightDetectionManager)
  (player : APlanet_NineMPCharacter) :
  Player m = Some player ->
  let P := ResolveDetectionPoint H (GetActorLocation player) in
  let lit :=
    (exists l, In l (SpotLights m)
               /\ SpotLightStep H (ForgivenessBuffer m) P l = Include)
    \/ (exists front l back,
          PointLights m = front ++ l :: back
          /\ Forall (fun x => PointLightStep (ForgivenessBuffer m) P x = Skip)
               front
          /\ PointLightStep (ForgivenessBuffer m) P l = Include) in
  (IlluminanceTotal (manager_of (UpdateDetection H m)) = Fin 1 <-> lit)
  /\ (IlluminanceTotal (manager_of (UpdateDetection H m)) = Fin 0
      <-> ~ lit).
Proof.
  intros Hplayer P lit.
  assert (Htotal : IlluminanceTotal (manager_of (UpdateDetection H m))
                   = SpotLightsLoop H (ForgivenessBuffer m) P (SpotLights m)
                       (PointLightsLoop (ForgivenessBuffer m) P
                          (PointLights m) (Fin 0))).
  { unfold UpdateDetection. cbn [Player set_IlluminanceTotal].
    rewrite Hplayer. reflexivity. }
  assert (Hone : IlluminanceTotal (manager_of (UpdateDetection H m)) = Fin 1
                 <-> lit).
  { rewrite Htotal, SpotLightsLoop_exists. unfold lit.
    destruct (existsb _ (SpotLights m)) eqn:Hex.
    - split; [|reflexivity]. intros _. left.
      apply existsb_exists in Hex. destruct Hex as (l & Hin & Hl).
      exists l. split; [exact Hin|].
      now destruct (SpotLightStep H (ForgivenessBuffer m) P l).
    - rewrite PointLightsLoop_one_iff. split; [now right|].
      intros [(l & Hin & Hl) | Hpoint]; [|exact Hpoint].
      assert (Hex' : existsb
                (fun l => is_Include
                            (SpotLightStep H (ForgivenessBuffer m) P l))
                (SpotLights m) = true).
      { apply existsb_exists. exists l. now rewrite Hl. }
      congruence. }
  split; [exact Hone|].
  rewrite <- Hone.
  assert (Hcases : IlluminanceTotal (manager_of (UpdateDetection H m))
                   = Fin 0
                   \/ IlluminanceTotal (manager_of (UpdateDetection H m))
                      = Fin 1).
  { rewrite Htotal.
    destruct (SpotLightsLoop_cases H (ForgivenessBuffer m) P (SpotLights m)
                (PointLightsLoop (ForgivenessBuffer m) P (PointLights m)
                   (Fin 0))) as [E|E]; [|now right].
    rewrite E. apply PointLightsLoop_cases. }
  destruct Hcases as [E|E]; rewrite E; split; congruence.
Qed.

(** X5 at a scene with a far point light in front of a point light in
    range. *)
Lemma UpdateDetection_total_is_one_iff_witness :
  let m :=
    Scenes.manager (Scenes.subject (Scenes.V 0 0 93.980003))
      [Scenes.far_point; Scenes.lit_point] [] (Fin 0) in
  IlluminanceTotal (manager_of (UpdateDetection Scenes.open_air m)) = Fin 1.
Proof.
  intro m.
  apply (proj1 (UpdateDetection_total_is_one_iff Scenes.open_air m
                  (mkCharacter (Scenes.V 0 0 93.980003)) eq_refl)).
  right. exists [Scenes.far_point], Scenes.lit_point, []. split; [reflexivity|].
  split; [repeat constructor|]; vm_compute; reflexivity.
Defined.

Lemma existsb_Permutation {A : Type} (f : A -> bool) (l l' : list A) :
  Permutation l l' -> existsb f l = existsb f l'.
Proof.
  induction 1 as [|x l l' _ IH|x y l|l l' l'' _ IH1 _ IH2]; simpl.
  - reflexivity.
  - now rewrite IH.
  - now destruct (f x), (f y).
  - congruence.
Qed.

(** X6.  When no ray from a visible spot light to the detection point is
    blocked, the spot-light pass does not depend on the order of the
    catalog: a permutation of [SpotLights] gives the same
    [IlluminanceTotal], in the pass and in the whole evaluation. *)
Theorem SpotLights_order_is_irrelevant
  (H : Host) (m : ALightDetectionManager) (spots : list SL.t) :
  Permutation (SpotLights m) spots ->
  let m' :=
    mkManager (Player m) (PointLights m) spots (RectLights m)
      (MainDirectionalLight m) (IlluminanceTotal m) (UpdateFrequency m)
      (UpdateTimer m) (ForgivenessBuffer m) in
  let unblocked P :=
    Forall (fun l => SL.IsVisible l = false
                     \/ LineTraceSingleByChannel H (SL.GetLightPosition l) P
                          ECC_GameTraceChannel5 = None) (SpotLights m) in
  (forall P,
     unblocked P ->
     IlluminanceTotal (CheckSpotLights H m' P)
     = IlluminanceTotal (CheckSpotLights H m P))
  /\ ((forall player,
         Player m = Some player ->
         unblocked (ResolveDetectionPoint H (GetActorLocation player))) ->
      IlluminanceTotal (manager_of (UpdateDetection H m'))
      = IlluminanceTotal (manager_of (UpdateDetection H m))).
Proof.
  intros Hperm m' unblocked.
  assert (Hloop : forall P total,
            SpotLightsLoop H (ForgivenessBuffer m) P spots total
            = SpotLightsLoop H (ForgivenessBuffer m) P (SpotLights m) total).
  { intros P total. rewrite !SpotLightsLoop_exists.
    now rewrite (existsb_Permutation _ _ _ Hperm). }
  split.
  - intros P _. apply Hloop.
  - intros _. unfold UpdateDetection. cbn [Player set_IlluminanceTotal m'].
    destruct (Player m); [|reflexivity]. apply Hloop.
Qed.

(** X6 at a catalog of two spot lights, swapped, in a world without
    occluders. *)
Lemma SpotLights_order_is_irrelevant_witness :
  let hidden :=
    SL.mk false (Fin 10) (Scenes.V 0 0 200) (Scenes.V 0 0 (-1)) (Fin 500)
      (Fin 30) in
  let m :=
    Scenes.manager (Scenes.subject (Scenes.V 0 0 93.980003)) []
      [hidden; Scenes.spot] (Fin 0) in
  let m' :=
    Scenes.manager (Scenes.subject (Scenes.V 0 0 93.980003)) []
      [Scenes.spot; hidden] (Fin 0) in
  IlluminanceTotal (manager_of (UpdateDetection Scenes.open_air m'))
  = IlluminanceTotal (manager_of (UpdateDetection Scenes.open_air m)).
Proof.
  intros hidden m m'.
  refine (proj2 (SpotLights_order_is_irrelevant Scenes.open_air m
                   [Scenes.spot; hidden] (perm_swap _ _ _)) _).
  intros player _. constructor; [left; reflexivity|].
  constructor; [right; reflexivity|constructor].
Defined.

Lemma SpotLightStep_unlit (H : Host) (buffer : float) (P : FVector)
  (l : SL.t) :
  SL.IsVisible l = false
  \/ fle (SL.Intensity l) (Fin 0) = true
  \/ LineTraceSingleByChannel H (SL.GetLightPosition l) P
       ECC_GameTraceChannel5 <> None ->
  SpotLightStep H buffer P l = Skip.
Proof.
  intro Hl. unfold SpotLightStep.
  destruct (SL.IsVisible l); [|reflexivity]. cbn [negb].
  destruct (fgt _ _); [reflexivity|].
  destruct (fgt _ _); [reflexivity|].
  destruct (LineTraceSingleByChannel H (SL.GetLightPosition l) P
              ECC_GameTraceChannel5) as [hit|]; [reflexivity|].
  destruct Hl as [Hl | [Hl | Hl]]; [discriminate| |now elim Hl].
  now rewrite Hl.
Qed.

(** X7.  A spot light that is hidden, or that has an intensity <= 0 and a
    free ray to the detection point, is not included, and the loop goes on
    with the spot lights behind it. *)
Theorem SpotLightsLoop_passes_over_unlit_light
  (H : Host) (buffer : float) (P : FVector) (l : SL.t)
  (rest : list SL.t) (total : float) :
  SL.IsVisible l = false
  \/ (fle (SL.Intensity l) (Fin 0) = true
      /\ LineTraceSingleByChannel H (SL.GetLightPosition l) P
           ECC_GameTraceChannel5 = None) ->
  SpotLightStep H buffer P l = Skip
  /\ SpotLightsLoop H buffer P (l :: rest) total
     = SpotLightsLoop H buffer P rest total.
Proof.
  intro Hl.
  assert (Hstep : SpotLightStep H buffer P l = Skip).
  { apply SpotLightStep_unlit. destruct Hl as [Hl | [Hl _]]; auto. }
  split; [exact Hstep|]. cbn [SpotLightsLoop]. now rewrite Hstep.
Qed.

(** X7 at a spot light of intensity 0 in front of the spot light of the
    scene, in a world without occluders. *)
Lemma SpotLightsLoop_passes_over_unlit_light_witness :
  let dark :=
    SL.mk true (Fin 0) (Scenes.V 0 0 200) (Scenes.V 0 0 (-1)) (Fin 500)
      (Fin 30) in
  SpotLightsLoop Scenes.open_air (Fin 0) (Scenes.V 0 0 0)
    [dark; Scenes.spot] (Fin 0) = Fin 1.
Proof.
  intro dark.
  rewrite (proj2 (SpotLightsLoop_passes_over_unlit_light Scenes.open_air
                    (Fin 0) (Scenes.V 0 0 0) dark [Scenes.spot] (Fin 0)
                    (or_intror (conj eq_refl eq_refl)))).
  vm_compute; reflexivity.
Defined.

(** X21.  In a scene where every point light and every spot light is hidden
    or has an intensity <= 0, an evaluation ends with
    [IlluminanceTotal = 0], whatever the previous value, the host and the
    subject. *)
Theorem UpdateDetection_dark_scene
  (H : Host) (m : ALightDetectionManager) :
  Forall (fun l => PL.IsVisible l = false
                   \/ fle (PL.Intensity l) (Fin 0) = true) (PointLights m) ->
  Forall (fun l => SL.IsVisible l = false
                   \/ fle (SL.Intensity l) (Fin 0) = true) (SpotLights m) ->
  IlluminanceTotal (manager_of (UpdateDetection H m)) = Fin 0.
Proof.
  intros Hpoints Hspots. unfold UpdateDetection.
  cbn [Player set_IlluminanceTotal].
  destruct (Player m) as [player|]; [|reflexivity].
  cbn [manager_of CheckSpotLights CheckPointLights set_IlluminanceTotal
         IlluminanceTotal SpotLights PointLights ForgivenessBuffer].
  assert (Hp : forall P,
            PointLightsLoop (ForgivenessBuffer m) P (PointLights m) (Fin 0)
            = Fin 0).
  { intro P. destruct Hpoints as [|l rest Hl _]; [reflexivity|].
    now apply PointLightsLoop_return. }
  rewrite Hp. rewrite SpotLightsLoop_exists.
  assert (Hs : forall P,
            existsb (fun l => is_Include
                                (SpotLightStep H (ForgivenessBuffer m) P l))
              (SpotLights m) = false).
  { intro P. induction Hspots as [|l rest Hl _ IH]; [reflexivity|].
    cbn [existsb]. rewrite IH, orb_false_r.
    rewrite (SpotLightStep_unlit H (ForgivenessBuffer m) P l);
      [reflexivity|]. destruct Hl as [Hl|Hl]; auto. }
  now rewrite Hs.
Qed.

(** X21 at a scene with a hidden point light, a point light of intensity 0
    and a hidden spot light. *)
Lemma UpdateDetection_dark_scene_witness :
  let hidden :=
    SL.mk false (Fin 10) (Scenes.V 0 0 200) (Scenes.V 0 0 (-1)) (Fin 500)
      (Fin 30) in
  let m :=
    Scenes.manager (Scenes.subject (Scenes.V 0 0 93.980003))
      [Scenes.hidden_point; Scenes.dark_point] [hidden] (Fin 1) in
  IlluminanceTotal (manager_of (UpdateDetection Scenes.open_air m)) = Fin 0.
Proof.
  intros hidden m.
  apply (UpdateDetection_dark_scene Scenes.open_air m).
  - constructor; [left; reflexivity|].
    constructor; [right; reflexivity|constructor].
  - constructor; [left; reflexivity|constructor].
Defined.

(** ** The range test of point lights *)

(** X8.  A point light that is visible, with an intensity that is not <= 0
    and a finite position, and that sits exactly at the detection point, is
    included unless [AttenuationRadius^2 + ForgivenessBuffer] is negative;
    with a finite radius and a buffer >= 0 it is always included. *)
Theorem PointLightStep_at_light_position (buffer : float) (l : PL.t) :
  PL.IsVisible l = true ->
  fle (PL.Intensity l) (Fin 0) = false ->
  finite_vector (PL.GetLightPosition l) ->
  PointLightStep buffer (PL.GetLightPosition l) l
  = (if flt (PointLightReach buffer l) (Fin 0) then Skip else Include)
  /\ (forall r b,
        PL.AttenuationRadius l = Fin r -> buffer = Fin b -> 0 <= b ->
        PointLightStep buffer (PL.GetLightPosition l) l = Include).
Proof.
  intros Hv Hi Hpos.
  assert (Hstep : PointLightStep buffer (PL.GetLightPosition l) l
                  = if flt (PointLightReach buffer l) (Fin 0)
                    then Skip else Include).
  { unfold PointLightStep. rewrite Hv, Hi. cbn [negb orb].
    now rewrite (DistSquared_self _ Hpos). }
  split; [exact Hstep|].
  intros r b Hr -> Hb. rewrite Hstep. unfold PointLightReach. rewrite Hr.
  unfold fmul, fadd.
  assert (Hreach : flt (Fin (Qred (Qred (r * r) + b))) (Fin 0) = false).
  { apply flt_Fin_false. rewrite !Qred_correct.
    pose proof (Qsquare_nonneg r). lra. }
  now rewrite Hreach.
Qed.

(** X8 at a light of radius 0 placed at the detection point. *)
Lemma PointLightStep_at_light_position_witness :
  let l := PL.mk true (Fin 10) (Scenes.V 1 2 3) (Fin 0) in
  PointLightStep (Fin 0) (Scenes.V 1 2 3) l = Include.
Proof.
  intro l.
  refine (proj2 (PointLightStep_at_light_position (Fin 0) l eq_refl eq_refl
                   _) 0 0 eq_refl eq_refl _).
  - repeat split; eexists; reflexivity.
  - apply Qle_refl.
Defined.

(** X9.  Raising [ForgivenessBuffer] never loses a point light: for finite
    positions and radius, a light that is included with a buffer [b] is
    included with every buffer [b' >= b]. *)
Theorem PointLightStep_buffer_monotone
  (P : FVector) (l : PL.t) (r b b' : Q) :
  finite_vector P ->
  finite_vector (PL.GetLightPosition l) ->
  PL.AttenuationRadius l = Fin r ->
  b <= b' ->
  PointLightStep (Fin b) P l = Include ->
  PointLightStep (Fin b') P l = Include.
Proof.
  intros HP Hpos Hr Hbb'. unfold PointLightStep.
  destruct (negb (PL.IsVisible l) || fle (PL.Intensity l) (Fin 0));
    [discriminate|].
  destruct (DistSquared_finite _ _ Hpos HP) as (q & -> & _).
  rewrite Hr. unfold fgt, fmul, fadd.
  destruct (flt (Fin (Qred (Qred (r * r) + b))) (Fin q)) eqn:Hb;
    [discriminate|]. intros _.
  apply flt_Fin_false in Hb. rewrite !Qred_correct in Hb.
  assert (Hb' : flt (Fin (Qred (Qred (r * r) + b'))) (Fin q) = false).
  { apply flt_Fin_false. rewrite !Qred_correct. lra. }
  now rewrite Hb'.
Qed.

(** X9 at the lit point light of the scene, buffers 0 and 25. *)
Lemma PointLightStep_buffer_monotone_witness :
  PointLightStep (Fin 25) (Scenes.V 0 0 0) Scenes.lit_point = Include.
Proof.
  refine (PointLightStep_buffer_monotone (Scenes.V 0 0 0) Scenes.lit_point
            500 0 25 _ _ eq_refl _ _).
  - repeat split; eexists; reflexivity.
  - repeat split; eexists; reflexivity.
  - discriminate.
  - vm_compute; reflexivity.
Defined.

(** X10.  When [AttenuationRadius^2 + ForgivenessBuffer] is negative (a
    negative buffer that outweighs the radius), the light is included at no
    finite detection point. *)
Theorem PointLightStep_negative_reach_excludes
  (buffer : float) (P : FVector) (l : PL.t) (t : Q) :
  finite_vector P ->
  finite_vector (PL.GetLightPosition l) ->
  PointLightReach buffer l = Fin t ->
  t < 0 ->
  PointLightStep buffer P l <> Include.
Proof.
  intros HP Hpos Hreach Ht. unfold PointLightStep.
  destruct (negb (PL.IsVisible l) || fle (PL.Intensity l) (Fin 0));
    [discriminate|].
  destruct (DistSquared_finite _ _ Hpos HP) as (q & -> & Hq).
  fold (PointLightReach buffer l). rewrite Hreach. unfold fgt.
  assert (Hlt : flt (Fin t) (Fin q) = true) by (apply flt_Fin; lra).
  rewrite Hlt. discriminate.
Qed.

(** X10 at the lit point light of the scene with a buffer of -250001: the
    light sits at distance 100 of the detection point and has radius
    500. *)
Lemma PointLightStep_negative_reach_excludes_witness :
  PointLightStep (Fin (-250001)) (Scenes.V 0 0 0) Scenes.lit_point
  <> Include.
Proof.
  refine (PointLightStep_negative_reach_excludes (Fin (-250001))
            (Scenes.V 0 0 0) Scenes.lit_point (-1) _ _ eq_refl _).
  - repeat split; eexists; reflexivity.
  - repeat split; eexists; reflexivity.
  - reflexivity.
Defined.

(** ** Rect lights *)

Lemma list_of_8 {A : Type} (l : list A) :
  List.length l = 8%nat ->
  exists a0 a1 a2 a3 a4 a5 a6 a7, l = [a0; a1; a2; a3; a4; a5; a6; a7].
Proof.
  do 9 (destruct l as [|? l]; try discriminate). intros _. repeat eexists.
Qed.

Lemma list_of_4 {A : Type} (l : list A) :
  List.length l = 4%nat -> exists a0 a1 a2 a3, l = [a0; a1; a2; a3].
Proof.
  do 5 (destruct l as [|? l]; try discriminate). intros _. repeat eexists.
Qed.

Ltac walk_lets_under f :=
  repeat lazymatch goal with
  | |- f (let x := ?v in @?b x) = ?r =>
      change (let x := v in f (b x) = r); intro
  end.

Lemma Recalculate_RectLight (H : Host) (w : RectLightWrapper) :
  RectLight (Recalculate H w) = RectLight w.
Proof.
  unfold Recalculate.
  transitivity (RectLight (CalculateFrustumPoints H w)).
  - unfold CalculateBoundingPlanes. walk_lets_under RectLight. reflexivity.
  - unfold CalculateFrustumPoints. walk_lets_under RectLight. reflexivity.
Qed.

Lemma Recalculate_keeps_shape (H : Host) (w : RectLightWrapper) :
  shape (Recalculate H w) = shape w.
Proof.
  unfold Recalculate.
  now rewrite CalculateBoundingPlanes_shape, CalculateFrustumPoints_shape.
Qed.

Lemma RectLightStep_wrapper (H : Host) (buffer : float) (P : FVector)
  (w : RectLightWrapper) :
  fst (RectLightStep H buffer P w) = w
  \/ fst (RectLightStep H buffer P w) = Recalculate H w.
Proof.
  unfold RectLightStep.
  destruct (negb _); [now left|]. destruct (fgt _ _); [now left|].
  destruct (LineTraceSingleByChannel H _ P ECC_GameTraceChannel5);
    [now left|].
  destruct (_ && _); now right.
Qed.

(** X11.  [CheckRectLights] leaves the function at the first rect light
    that is hidden: when the first light of the catalog is hidden, the call
    changes nothing, whatever lights follow it. *)
Theorem CheckRectLights_returns_at_hidden_light
  (H : Host) (m : ALightDetectionManager)
  (player : APlanet_NineMPCharacter) (w : RectLightWrapper)
  (rest : list RectLightWrapper) :
  Player m = Some player ->
  RectLights m = w :: rest ->
  RL.IsVisible (RectLight w) = false ->
  CheckRectLights H m = Done m.
Proof.
  intros Hplayer Hlights Hw. unfold CheckRectLights.
  rewrite Hplayer, Hlights. cbn [RectLightsLoop].
  rewrite (RectLightStep_hidden H _ _ w Hw).
  destruct m as [pl ps ss rs d t f u b]. cbn in Hlights. subst rs.
  reflexivity.
Qed.

(** X12.  The loop of [CheckRectLights] keeps the catalog as it is, up to
    the caches: the same number of wrappers, in the same order, each for the
    same light and with arrays of the same sizes. *)
Theorem RectLightsLoop_keeps_lights_and_sizes
  (H : Host) (buffer : float) (P : FVector) :
  forall (lights : list RectLightWrapper) (total : float),
    map RectLight (fst (RectLightsLoop H buffer P lights total))
    = map RectLight lights
    /\ map shape (fst (RectLightsLoop H buffer P lights total))
       = map shape lights.
Proof.
  induction lights as [|w rest IH]; intro total; [now split|].
  cbn [RectLightsLoop].
  assert (Hw : RectLight (fst (RectLightStep H buffer P w)) = RectLight w
               /\ shape (fst (RectLightStep H buffer P w)) = shape w).
  { destruct (RectLightStep_wrapper H buffer P w) as [-> | ->];
      [now split|].
    split; [apply Recalculate_RectLight|apply Recalculate_keeps_shape]. }
  destruct (RectLightStep H buffer P w) as [w' v]. cbn [fst] in Hw.
  destruct Hw as [Hlight Hshape].
  destruct v.
  - cbn [fst map]. now rewrite Hlight, Hshape.
  - specialize (IH total).
    destruct (RectLightsLoop H buffer P rest total) as [rest' total'].
    cbn [fst map] in *. destruct IH as [-> ->].
    now rewrite Hlight, Hshape.
  - specialize (IH (fadd total (RectContribution H P w'))).
    destruct (RectLightsLoop H buffer P rest _) as [rest' total'].
    cbn [fst map] in *. destruct IH as [-> ->].
    now rewrite Hlight, Hshape.
Qed.

(** X13.  The cached frustum points and bounding planes have no influence:
    two wrappers of the same light, each with its 8 points and 4 planes, are
    recomputed to the same wrapper; recomputing twice is recomputing once;
    and one loop iteration decides the same for both. *)
Theorem Recalculate_ignores_cache
  (H : Host) (w1 w2 : RectLightWrapper) :
  RectLight w1 = RectLight w2 ->
  shape w1 = (8%nat, 4%nat) ->
  shape w2 = (8%nat, 4%nat) ->
  Recalculate H w1 = Recalculate H w2
  /\ Recalculate H (Recalculate H w1) = Recalculate H w1
  /\ (forall buffer P,
        snd (RectLightStep H buffer P w1) = snd (RectLightStep H buffer P w2)).
Proof.
  assert (Hsame : forall v1 v2,
            RectLight v1 = RectLight v2 ->
            shape v1 = (8%nat, 4%nat) -> shape v2 = (8%nat, 4%nat) ->
            Recalculate H v1 = Recalculate H v2).
  { intros [L1 fp1 bp1] [L2 fp2 bp2] Hlight Hs1 Hs2.
    cbn in Hlight. subst L2. unfold shape in Hs1, Hs2.
    cbn [FrustumPoints BoundingPlanes] in Hs1, Hs2.
    injection Hs1 as Hf1 Hb1. injection Hs2 as Hf2 Hb2.
    apply list_of_8 in Hf1, Hf2. apply list_of_4 in Hb1, Hb2.
    destruct Hf1 as (a0 & a1 & a2 & a3 & a4 & a5 & a6 & a7 & ->).
    destruct Hf2 as (b0 & b1 & b2 & b3 & b4 & b5 & b6 & b7 & ->).
    destruct Hb1 as (c0 & c1 & c2 & c3 & ->).
    destruct Hb2 as (d0 & d1 & d2 & d3 & ->).
    reflexivity. }
  intros Hlight Hs1 Hs2.
  pose proof (Hsame w1 w2 Hlight Hs1 Hs2) as Heq.
  split; [exact Heq|]. split.
  - apply Hsame.
    + apply Recalculate_RectLight.
    + now rewrite Recalculate_keeps_shape.
    + exact Hs1.
  - intros buffer P. unfold RectLightStep. rewrite Heq, Hlight.
    destruct (negb _); [reflexivity|]. destruct (fgt _ _); [reflexivity|].
    destruct (LineTraceSingleByChannel H _ P ECC_GameTraceChannel5);
      [reflexivity|].
    now destruct (_ && _).
Qed.

(** X13 at the rect light of the scene: a fresh wrapper and a wrapper that
    was recomputed before. *)
Lemma Recalculate_ignores_cache_witness :
  let w := RectLightWrapper_new Scenes.rect in
  Recalculate Scenes.open_air (Recalculate Scenes.open_air w)
  = Recalculate Scenes.open_air w.
Proof.
  intro w.
  exact (proj1 (proj2 (Recalculate_ignores_cache Scenes.open_air w w
                         eq_refl eq_refl eq_refl))).
Defined.

(** X11 at a catalog with a hidden rect light in front of the rect light of
    the scene. *)
Lemma CheckRectLights_returns_at_hidden_light_witness :
  let hidden :=
    RectLightWrapper_new
      (RL.mk false (Fin 100) (Scenes.V 0 0 0) (Scenes.V 1 0 0)
         (Scenes.V 0 1 0) (Scenes.V 0 0 1) (Fin 500) (Fin 200) (Fin 100)
         (Fin 300) (Fin 20)) in
  let m :=
    set_RectLights
      (Scenes.manager (Scenes.subject (Scenes.V 100 0 0)) [] [] (Fin 0))
      [hidden; RectLightWrapper_new Scenes.rect] in
  CheckRectLights Scenes.open_air m = Done m.
Proof.
  intros hidden m.
  exact (CheckRectLights_returns_at_hidden_light Scenes.open_air m
           (mkCharacter (Scenes.V 100 0 0)) hidden
           [RectLightWrapper_new Scenes.rect] eq_refl eq_refl eq_refl).
Defined.

(** X14.  The plane test reads only the normal of a stored bounding plane:
    for finite vectors, a point is on the positive side of the plane that
    [CalculateBoundingPlanes] stores (distance > 0) exactly when it is on
    the negative side of the normalised cross product of the two edges, and
    the point [through] that fixes the plane's [W] plays no part. *)
Theorem BoundingPlane_positive_side
  (H : Host) (edgeA edgeB through P PlaneBase : FVector) :
  finite_vector P ->
  finite_vector PlaneBase ->
  finite_vector (Normalize H (CrossProduct edgeA edgeB)) ->
  fgt (PointPlaneDist P PlaneBase
         (GetNormal (BoundingPlane H edgeA edgeB through))) (Fin 0)
  = flt (PointPlaneDist P PlaneBase
           (Normalize H (CrossProduct edgeA edgeB))) (Fin 0).
Proof.
  intros ([px Hpx] & [py Hpy] & [pz Hpz]) ([bx Hbx] & [by' Hby] & [bz Hbz])
    ([nx Hnx] & [ny Hny] & [nz Hnz]).
  unfold BoundingPlane, Flip, GetNormal. cbn [pNormal].
  unfold PointPlaneDist, DotProduct, vsub, vneg. cbn [vX vY vZ].
  rewrite Hpx, Hpy, Hpz, Hbx, Hby, Hbz, Hnx, Hny, Hnz.
  unfold fgt, fneg, fsub, fmul, fadd.
  match goal with
  | |- flt (Fin 0) (Fin ?x) = flt (Fin ?y) (Fin 0) =>
      assert (Hxy : x == - y) by (rewrite !Qred_correct; ring);
      set (X := x) in *; set (Y := y) in *
  end.
  apply eq_iff_eq_true. rewrite !flt_Fin. split; intro; lra.
Qed.

(** X14 at a plane through two axis-parallel edges, built on the reference
    host, and a point below it. *)
Lemma BoundingPlane_positive_side_witness :
  let edgeA := Scenes.V 0 (-200) 0 in
  let edgeB := Scenes.V 300 0 0 in
  flt (PointPlaneDist (Scenes.V 100 0 (-100)) (Scenes.V 0 (-100) (-50))
         (Normalize Scenes.open_air (CrossProduct edgeA edgeB))) (Fin 0)
  = true.
Proof.
  intros edgeA edgeB.
  rewrite <- (BoundingPlane_positive_side Scenes.open_air edgeA edgeB
                (Scenes.V 0 0 0) (Scenes.V 100 0 (-100))
                (Scenes.V 0 (-100) (-50))).
  - vm_compute; reflexivity.
  - repeat split; eexists; reflexivity.
  - repeat split; eexists; reflexivity.
  - repeat split; eexists; vm_compute; reflexivity.
Defined.

(** ** The subject and the directional light *)

(** X15.  With a null subject, [CheckRectLights] faults before its loop,
    also when there is no rect light at all, and leaves the manager
    untouched; [CheckDirectionalLight] faults only when a visible
    directional light is present, and returns without any change when the
    light is absent or hidden. *)
Theorem null_subject_in_rect_and_directional_evaluators
  (H : Host) (m : ALightDetectionManager) :
  Player m = None ->
  CheckRectLights H m = AccessViolation m
  /\ (CheckDirectionalLight H m = AccessViolation m
      <-> exists light,
            MainDirectionalLight m = Some light
            /\ DL.IsVisible light = true)
  /\ (CheckDirectionalLight H m = Done m
      <-> MainDirectionalLight m = None
          \/ exists light,
               MainDirectionalLight m = Some light
               /\ DL.IsVisible light = false).
Proof.
  intro Hnull. unfold CheckRectLights, CheckDirectionalLight.
  rewrite Hnull. split; [reflexivity|].
  destruct (MainDirectionalLight m) as [light|].
  - destruct (DL.IsVisible light) eqn:Hv; cbn [negb]; split; split.
    + intros _. now exists light.
    + reflexivity.
    + discriminate.
    + intros [Hnone | (l & Hl & Hhidden)]; [discriminate|].
      injection Hl as <-. congruence.
    + discriminate.
    + intros (l & Hl & Hvis). injection Hl as <-. congruence.
    + intros _. right. now exists light.
    + reflexivity.
  - split; split; try reflexivity; try discriminate.
    + intros (l & Hl & _). discriminate.
    + intros _. now left.
Qed.

(** X15 at a manager without subject, without rect lights and with a
    visible directional light. *)
Lemma null_subject_in_rect_and_directional_evaluators_witness :
  let m :=
    set_MainDirectionalLight (Scenes.manager None [] [] (Fin 0))
      (Some Scenes.sun) in
  RectLights m = []
  /\ CheckRectLights Scenes.open_air m = AccessViolation m
  /\ CheckDirectionalLight Scenes.open_air m = AccessViolation m.
Proof.
  intro m.
  destruct (null_subject_in_rect_and_directional_evaluators Scenes.open_air
              m eq_refl) as (Hrect & Hdir & _).
  split; [reflexivity|]. split; [exact Hrect|].
  apply Hdir. now exists Scenes.sun.
Defined.

(** X16.  [CheckDirectionalLight] writes nothing but [IlluminanceTotal], and
    that only by adding the intensity of the light: the manager it leaves
    is the one it was given, or that one with the intensity added to the
    total.  With a blocked probe ray it is the one it was given. *)
Theorem CheckDirectionalLight_only_adds
  (H : Host) (m : ALightDetectionManager) :
  (manager_of (CheckDirectionalLight H m) = m
   \/ exists light,
        MainDirectionalLight m = Some light
        /\ manager_of (CheckDirectionalLight H m)
           = set_IlluminanceTotal m
               (fadd (IlluminanceTotal m) (DL.Intensity light)))
  /\ (forall light player,
        MainDirectionalLight m = Some light ->
        Player m = Some player ->
        LineTraceSingleByChannel H
          (vsub (GetActorLocation player)
             (vscale (DL.GetForwardVector light) (Fin 5000)))
          (GetActorLocation player) ECC_Visibility <> None ->
        CheckDirectionalLight H m = Done m).
Proof.
  unfold CheckDirectionalLight. split.
  - destruct (MainDirectionalLight m) as [light|]; [|now left].
    destruct (negb (DL.IsVisible light)); [now left|].
    destruct (Player m) as [player|]; [|now left].
    destruct (LineTraceSingleByChannel H _ _ ECC_Visibility); [now left|].
    right. now exists light.
  - intros light player -> -> Hblocked.
    destruct (negb (DL.IsVisible light)); [reflexivity|].
    destruct (LineTraceSingleByChannel H _ _ ECC_Visibility);
      [reflexivity|now elim Hblocked].
Qed.

(** A host on which every ray is blocked at its origin. *)
Lemma CheckDirectionalLight_only_adds_witness :
  let walled :=
    mkHost (fun a _ _ => Some (mkFHitResult a)) RefHost.Sqrt RefHost.Acos
      RefHost.Cos RefHost.Sin RefHost.GetSafeNormal RefHost.Normalize
      RefHost.RotateAngleAxis ZeroVector in
  let m :=
    set_MainDirectionalLight
      (Scenes.manager (Scenes.subject (Scenes.V 0 0 0)) [] [] (Fin 1))
      (Some Scenes.sun) in
  CheckDirectionalLight walled m = Done m.
Proof.
  intros walled m.
  refine (proj2 (CheckDirectionalLight_only_adds walled m) Scenes.sun
            (mkCharacter (Scenes.V 0 0 0)) eq_refl eq_refl _).
  discriminate.
Defined.

(** ** Runs of frames *)

Lemma UpdateDetection_Configuration (H : Host) (m : ALightDetectionManager) :
  Configuration (manager_of (UpdateDetection H m)) = Configuration m.
Proof.
  destruct m as [[c|] ps ss rs d t f u b]; reflexivity.
Qed.

Lemma Tick_Configuration (H : Host) (m : ALightDetectionManager)
  (dt : float) :
  Configuration (manager_of (snd (Tick H m dt))) = Configuration m.
Proof.
  unfold Tick.
  pose proof (UpdateDetection_Configuration H
                (set_UpdateTimer m (fsub (UpdateTimer m) dt))) as Hc.
  destruct (fle _ (Fin 0)); [|reflexivity].
  destruct (UpdateDetection H _) as [m1|m1]; cbn [snd manager_of] in *;
    exact Hc.
Qed.

(** X17.  Over a run of frames of any delta-times, the number of
    evaluations never exceeds the number of frames, and the run writes
    nothing but [IlluminanceTotal] and the timer: subject, catalogs,
    directional light, [UpdateFrequency] and [ForgivenessBuffer] are at the
    end what they were at the start. *)
Theorem Frames_at_most_one_evaluation_per_frame (H : Host) :
  forall (dts : list float) (m : ALightDetectionManager),
    (List.length (fst (Frames H m dts)) <= List.length dts)%nat
    /\ Configuration (manager_of (snd (Frames H m dts))) = Configuration m.
Proof.
  induction dts as [|dt rest IH]; intro m.
  { split; [apply Nat.le_refl|reflexivity]. }
  cbn [Frames].
  pose proof (Tick_log H m dt) as Hlog.
  pose proof (Tick_Configuration H m dt) as Hconf.
  destruct (Tick H m dt) as [log [m1|m1]]; cbn [fst snd manager_of] in *.
  - specialize (IH m1). destruct (Frames H m1 rest) as [log' o].
    cbn [fst snd] in *. rewrite length_app. destruct IH as [Hlen Hc].
    split; [|now rewrite Hc].
    subst log. destruct (fle _ (Fin 0)); cbn [List.length]; lia.
  - split; [|exact Hconf].
    subst log. destruct (fle _ (Fin 0)); cbn [List.length]; lia.
Qed.

Lemma set_UpdateTimer_same (m : ALightDetectionManager) :
  set_UpdateTimer m (UpdateTimer m) = m.
Proof. now destruct m. Qed.

(** X18.  With [UpdateFrequency] zero, [BeginPlay] sets the timer to
    [1 / 0], the positive infinity; from then on no frame of finite
    delta-time runs an evaluation, and the manager stays as [BeginPlay]
    left it. *)
Theorem zero_frequency_never_evaluates
  (H : Host) (world : Scene) (m : ALightDetectionManager) (f : Q)
  (dts : list float) :
  UpdateFrequency m = Fin f ->
  f == 0 ->
  Forall finite dts ->
  UpdateTimer (BeginPlay world m) = PInf
  /\ Frames H (BeginPlay world m) dts = ([], Done (BeginPlay world m)).
Proof.
  intros Hf Hzero Hdts.
  assert (Htimer : UpdateTimer (BeginPlay world m) = PInf).
  { unfold BeginPlay. destruct (CollectLights _ _ _). cbn [UpdateTimer].
    rewrite Hf. unfold fdiv.
    apply Qeq_bool_iff in Hzero. now rewrite Hzero. }
  split; [exact Htimer|].
  generalize dependent (BeginPlay world m). intros m0 Htimer.
  induction Hdts as [|dt rest [d ->] _ IH]; [reflexivity|].
  cbn [Frames]. unfold Tick. rewrite Htimer. cbn [fsub].
  rewrite <- Htimer, set_UpdateTimer_same, Htimer. cbn [fle].
  now rewrite IH.
Qed.

(** X18 at [UpdateFrequency = 0] and three frames. *)
Lemma zero_frequency_never_evaluates_witness :
  let m :=
    Scenes.with_frequency
      (Scenes.manager None [Scenes.lit_point] [] (Fin 0)) (Fin 0) in
  fst (Frames Scenes.open_air (BeginPlay World.stage m)
         [Fin (1 # 60); Fin 5; Fin 1000]) = [].
Proof.
  intro m.
  refine (f_equal fst
            (proj2 (zero_frequency_never_evaluates Scenes.open_air
                      World.stage m 0 [Fin (1 # 60); Fin 5; Fin 1000]
                      eq_refl _ _))).
  - reflexivity.
  - repeat constructor; eexists; reflexivity.
Defined.

Lemma UpdateDetection_Done (H : Host) (m : ALightDetectionManager)
  (player : APlanet_NineMPCharacter) :
  Player m = Some player -> exists m1, UpdateDetection H m = Done m1.
Proof.
  intro Hp. unfold UpdateDetection. cbn [Player set_IlluminanceTotal].
  rewrite Hp. eexists. reflexivity.
Qed.

(** X19.  When every frame lasts at least one period ([UpdateFrequency]
    positive, delta-times >= [1 / UpdateFrequency]) and the subject is
    present, a run that starts with the timer at most one period runs
    exactly one evaluation on every frame and ends without fault. *)
Theorem Frames_evaluate_on_every_slow_frame (H : Host) (f : Q) :
  0 < f ->
  forall (ds : list Q) (m : ALightDetectionManager)
         (player : APlanet_NineMPCharacter) (t : Q),
    UpdateFrequency m = Fin f ->
    Player m = Some player ->
    UpdateTimer m = Fin t ->
    t <= 1 / f ->
    Forall (fun d => 1 / f <= d) ds ->
    fst (Frames H m (map Fin ds))
    = repeat EvUpdateDetection (List.length ds)
    /\ exists m', snd (Frames H m (map Fin ds)) = Done m'.
Proof.
  intros Hf ds.
  induction ds as [|d rest IH]; intros m player t Hfreq Hplayer Htimer Ht Hds.
  - split; [reflexivity|]. now exists m.
  - inversion Hds as [|? ? Hd Hrest]; subst.
    cbn [map Frames List.length repeat].
    assert (Hfire : fle (fsub (UpdateTimer m) (Fin d)) (Fin 0) = true).
    { rewrite Htimer. unfold fsub. apply fle_Fin. rewrite Qred_correct.
      lra. }
    assert (Hconf : Configuration
                      (manager_of
                         (UpdateDetection H
                            (set_UpdateTimer m
                               (fsub (UpdateTimer m) (Fin d)))))
                    = Configuration m)
      by (rewrite UpdateDetection_Configuration; reflexivity).
    destruct (UpdateDetection_Done H
                (set_UpdateTimer m (fsub (UpdateTimer m) (Fin d))) player)
      as [m1 Hrun]; [exact Hplayer|].
    unfold Tick. cbn [UpdateTimer set_UpdateTimer]. rewrite Hfire, Hrun.
    rewrite Hrun in Hconf. cbn [manager_of] in Hconf.
    unfold Configuration in Hconf.
    injection Hconf as Hp1 _ _ _ _ Hf1 _.
    set (m2 := set_UpdateTimer m1 (fdiv (Fin 1) (UpdateFrequency m1))).
    assert (Hnz : Qeq_bool f 0 = false).
    { apply not_true_is_false. intro E. apply Qeq_bool_iff in E. lra. }
    destruct (IH m2 player (Qred (1 / f))) as [Hlog [m' Hend]].
    + unfold m2. cbn. now rewrite Hf1.
    + unfold m2. cbn. now rewrite Hp1.
    + unfold m2. cbn [UpdateTimer set_UpdateTimer]. rewrite Hf1, Hfreq.
      unfold fdiv. now rewrite Hnz.
    + rewrite Qred_correct. apply Qle_refl.
    + exact Hrest.
    + destruct (Frames H m2 (map Fin rest)) as [log' o].
      cbn [fst snd] in *. subst log'. split; [reflexivity|].
      now exists m'.
Qed.

(** X19 at the default frequency 50 and three frames of 1/30. *)
Lemma Frames_evaluate_on_every_slow_frame_witness :
  let m :=
    Scenes.manager (Scenes.subject (Scenes.V 0 0 93.980003))
      [Scenes.lit_point] [] (Fin 0) in
  fst (Frames Scenes.open_air m (map Fin [1 # 30; 1 # 30; 1 # 30]))
  = [EvUpdateDetection; EvUpdateDetection; EvUpdateDetection].
Proof.
  intro m.
  refine (proj1 (Frames_evaluate_on_every_slow_frame Scenes.open_air 50 _
                   [1 # 30; 1 # 30; 1 # 30] m
                   (mkCharacter (Scenes.V 0 0 93.980003)) (1 # 50)
                   eq_refl eq_refl eq_refl _ _)).
  - reflexivity.
  - discriminate.
  - repeat constructor; discriminate.
Defined.

(** ** The uninitialised detection point *)

Lemma SpotLightsLoop_with_Uninitialized (H : Host) (u : FVector)
  (buffer : float) (P : FVector) (lights : list SL.t) :
  forall total,
    SpotLightsLoop (with_Uninitialized H u) buffer P lights total
    = SpotLightsLoop H buffer P lights total.
Proof.
  induction lights as [|l rest IH]; intro total; [reflexivity|].
  cbn [SpotLightsLoop].
  change (SpotLightStep (with_Uninitialized H u) buffer P l)
    with (SpotLightStep H buffer P l).
  destruct (SpotLightStep H buffer P l); auto.
Qed.

(** X22.  The content of the uninitialised local [DetectionPoint] reaches
    an evaluation only through the floor probe that hits at a distance that
    is not below 98: when the probe misses, or hits closer than 98, the
    outcome of [UpdateDetection] is the same for every content. *)
Theorem UpdateDetection_reads_uninitialised_only_on_far_floor
  (H : Host) (m : ALightDetectionManager)
  (player : APlanet_NineMPCharacter) (u : FVector) :
  Player m = Some player ->
  (forall hit,
     LineTraceSingleByChannel H (GetActorLocation player)
       (vadd (GetActorLocation player) (vscale DownVector (Fin 100)))
       ECC_GameTraceChannel5 = Some hit ->
     flt (Distance H (Location hit) (GetActorLocation player)) (Fin 98)
     = true) ->
  UpdateDetection (with_Uninitialized H u) m = UpdateDetection H m.
Proof.
  intros Hplayer Hnear. unfold UpdateDetection.
  cbn [Player set_IlluminanceTotal]. rewrite Hplayer. f_equal.
  assert (HP : ResolveDetectionPoint (with_Uninitialized H u)
                 (GetActorLocation player)
               = ResolveDetectionPoint H (GetActorLocation player)).
  { unfold ResolveDetectionPoint.
    cbn [with_Uninitialized LineTraceSingleByChannel Uninitialized].
    destruct (LineTraceSingleByChannel H (GetActorLocation player) _
                ECC_GameTraceChannel5) as [hit|] eqn:Hhit; [|reflexivity].
    change (Distance (with_Uninitialized H u) (Location hit)
              (GetActorLocation player))
      with (Distance H (Location hit) (GetActorLocation player)).
    now rewrite (Hnear hit eq_refl). }
  rewrite HP. unfold CheckSpotLights.
  now rewrite SpotLightsLoop_with_Uninitialized.
Qed.

(** X22 at a subject standing 50 above the floor. *)
Lemma UpdateDetection_reads_uninitialised_only_on_far_floor_witness :
  let m :=
    Scenes.manager (Scenes.subject (Scenes.V 0 0 51)) [Scenes.lit_point] []
      (Fin 0) in
  UpdateDetection
    (with_Uninitialized (Scenes.low_floor (Scenes.V 7 7 7)) (Scenes.V 1 2 3))
    m
  = UpdateDetection (Scenes.low_floor (Scenes.V 7 7 7)) m.
Proof.
  intro m.
  refine (UpdateDetection_reads_uninitialised_only_on_far_floor
            (Scenes.low_floor (Scenes.V 7 7 7)) m
            (mkCharacter (Scenes.V 0 0 51)) (Scenes.V 1 2 3) eq_refl _).
  intros hit Hhit. vm_compute in Hhit. injection Hhit as <-.
  vm_compute; reflexivity.
Defined.

(** When the floor probe misses or hits closer than 98, the detection point
    is the same for every content of the unassigned local. *)
Lemma ResolveDetectionPoint_with_Uninitialized (H : Host) (u : FVector)
  (P : FVector) :
  (forall hit,
     LineTraceSingleByChannel H P (vadd P (vscale DownVector (Fin 100)))
       ECC_GameTraceChannel5 = Some hit ->
     flt (Distance H (Location hit) P) (Fin 98) = true) ->
  ResolveDetectionPoint (with_Uninitialized H u) P
  = ResolveDetectionPoint H P.
Proof.
  intro Hnear. unfold ResolveDetectionPoint.
  cbn [with_Uninitialized LineTraceSingleByChannel Uninitialized].
  destruct (LineTraceSingleByChannel H P _ ECC_GameTraceChannel5)
    as [hit|] eqn:Hhit; [|reflexivity].
  change (Distance (with_Uninitialized H u) (Location hit) P)
    with (Distance H (Location hit) P).
  now rewrite (Hnear hit eq_refl).
Qed.

(** X4.  An evaluation writes [IlluminanceTotal] and nothing else.  When the
    floor probe below the subject misses or hits closer than 98 (so that
    the unassigned local is not read), its outcome depends neither on the
    value that [IlluminanceTotal] had nor on what the stack holds: started
    from any previous total, or once more in the state that an evaluation
    left, and with any content of the unassigned local, it gives the same
    outcome. *)
Theorem UpdateDetection_only_writes_total_and_is_idempotent
  (H : Host) (m : ALightDetectionManager) :
  manager_of (UpdateDetection H m)
  = set_IlluminanceTotal m
      (IlluminanceTotal (manager_of (UpdateDetection H m)))
  /\ ((forall player hit,
         Player m = Some player ->
         LineTraceSingleByChannel H (GetActorLocation player)
           (vadd (GetActorLocation player) (vscale DownVector (Fin 100)))
           ECC_GameTraceChannel5 = Some hit ->
         flt (Distance H (Location hit) (GetActorLocation player)) (Fin 98)
         = true) ->
      (forall u previous,
         UpdateDetection (with_Uninitialized H u)
           (set_IlluminanceTotal m previous)
         = UpdateDetection H m)
      /\ (forall u,
            UpdateDetection (with_Uninitialized H u)
              (manager_of (UpdateDetection H m))
            = UpdateDetection H m)).
Proof.
  split.
  - destruct m as [[c|] ps ss rs d t f u b]; reflexivity.
  - intro Hnear.
    assert (Hprev : forall u previous,
              UpdateDetection (with_Uninitialized H u)
                (set_IlluminanceTotal m previous)
              = UpdateDetection H m).
    { intros u previous. unfold UpdateDetection.
      cbn [Player set_IlluminanceTotal].
      destruct (Player m) as [player|] eqn:Hplayer; [|reflexivity].
      rewrite (ResolveDetectionPoint_with_Uninitialized H u
                 (GetActorLocation player)
                 (fun hit => Hnear player hit eq_refl)).
      f_equal. unfold CheckSpotLights, CheckPointLights.
      cbn [set_IlluminanceTotal SpotLights PointLights ForgivenessBuffer
             IlluminanceTotal Player RectLights MainDirectionalLight
             UpdateFrequency UpdateTimer].
      now rewrite SpotLightsLoop_with_Uninitialized. }
    split; [exact Hprev|].
    intro u.
    assert (Hwrite : manager_of (UpdateDetection H m)
                     = set_IlluminanceTotal m
                         (IlluminanceTotal (manager_of (UpdateDetection H m))))
      by (destruct m as [[c|] ps ss rs d t f u0 b]; reflexivity).
    rewrite Hwrite at 1. apply Hprev.
Qed.

(** X4 at a subject standing 50 above the floor: a second evaluation, with
    another content of the unassigned local and the total that the first
    one left, gives the outcome of the first. *)
Lemma UpdateDetection_only_writes_total_and_is_idempotent_witness :
  let H := Scenes.low_floor (Scenes.V 7 7 7) in
  let m :=
    Scenes.manager (Scenes.subject (Scenes.V 0 0 51)) [Scenes.lit_point] []
      (Fin 5) in
  UpdateDetection (with_Uninitialized H (Scenes.V 1 2 3))
    (manager_of (UpdateDetection H m))
  = UpdateDetection H m.
Proof.
  intros H m.
  refine (proj2 (proj2 (UpdateDetection_only_writes_total_and_is_idempotent
                          H m) _) (Scenes.V 1 2 3)).
  intros player hit Hplayer Hhit. injection Hplayer as <-.
  vm_compute in Hhit. injection Hhit as <-.
  vm_compute; reflexivity.
Defined.

(** ** The frustum of a rect light *)

Lemma fdiv_by_2 (a : Q) : fdiv (Fin a) (Fin 2) = Fin (Qred (a / 2)).
Proof. reflexivity. Qed.

Ltac finite_components :=
  repeat match goal with
         | Hf : finite_vector _ |- _ =>
             let x := fresh "x" in
             let y := fresh "y" in
             let z := fresh "z" in
             let Hx := fresh "Hx" in
             let Hy := fresh "Hy" in
             let Hz := fresh "Hz" in
             destruct Hf as ([x Hx] & [y Hy] & [z Hz])
         | Hf : finite _ |- _ =>
             let q := fresh "q" in
             let Hq := fresh "Hq" in
             destruct Hf as [q Hq]
         end.

Ltac rewrite_components :=
  unfold vsub, vadd, vscale; cbn [vX vY vZ];
  repeat match goal with
         | Hq : _ = Fin _ |- _ => rewrite !Hq; clear Hq
         end;
  rewrite ?fdiv_by_2; unfold fsub, fadd, fmul.

Ltac same_rational :=
  f_equal; f_equal; apply Qred_complete; rewrite !Qred_correct; field.

(** X23.  For a rect light with finite position, right and up vectors and
    source size, the four near points that [CalculateFrustumPoints] writes
    form the parallelogram spanned by [right * SourceWidth] and
    [up * SourceHeight], centred at the light position. *)
Theorem CalculateFrustumPoints_near_rectangle
  (H : Host) (w : RectLightWrapper) :
  List.length (FrustumPoints w) = 8%nat ->
  finite_vector (RL.GetLightPosition (RectLight w)) ->
  finite_vector (RL.GetRightVector (RectLight w)) ->
  finite_vector (RL.GetUpVector (RectLight w)) ->
  finite (RL.SourceWidth (RectLight w)) ->
  finite (RL.SourceHeight (RectLight w)) ->
  let w' := CalculateFrustumPoints H w in
  let across :=
    vscale (RL.GetRightVector (RectLight w)) (RL.SourceWidth (RectLight w)) in
  let upward :=
    vscale (RL.GetUpVector (RectLight w)) (RL.SourceHeight (RectLight w)) in
  vsub (pt w' 1) (pt w' 0) = across
  /\ vsub (pt w' 2) (pt w' 3) = across
  /\ vsub (pt w' 0) (pt w' 3) = upward
  /\ vsub (pt w' 1) (pt w' 2) = upward
  /\ vadd (pt w' 0) (pt w' 2)
     = vscale (RL.GetLightPosition (RectLight w)) (Fin 2)
  /\ vadd (pt w' 1) (pt w' 3)
     = vscale (RL.GetLightPosition (RectLight w)) (Fin 2).
Proof.
  destruct w as [L fp bp]. cbn [RectLight FrustumPoints].
  intros (a0 & a1 & a2 & a3 & a4 & a5 & a6 & a7 & ->)%list_of_8
    Hpos Hright Hup Hwidth Hheight.
  cbn [CalculateFrustumPoints set_pt pt TArray_set nth FrustumPoints
         BoundingPlanes RectLight].
  finite_components. rewrite_components.
  repeat split; same_rational.
Qed.

(** X23 at the rect light of the scene: the top edge of the source is 200
    long. *)
Lemma CalculateFrustumPoints_near_rectangle_witness :
  let w' :=
    CalculateFrustumPoints Scenes.open_air
      (RectLightWrapper_new Scenes.rect) in
  vsub (pt w' 1) (pt w' 0) = Scenes.V 0 200 0.
Proof.
  intro w'.
  refine (proj1 (CalculateFrustumPoints_near_rectangle Scenes.open_air
                   (RectLightWrapper_new Scenes.rect) eq_refl _ _ _ _ _)).
  - repeat split; eexists; reflexivity.
  - repeat split; eexists; reflexivity.
  - repeat split; eexists; reflexivity.
  - eexists; reflexivity.
  - eexists; reflexivity.
Defined.

(** X24.  The four far points form the parallelogram spanned by
    [right * (2 e + SourceWidth)] and [up * (2 e + SourceHeight)], where
    [e = BarnDoorLength * sin BarnDoorAngle] is the flare, whenever the far
    top-left point, the flare, the source size and the right and up vectors
    are finite. *)
Theorem CalculateFrustumPoints_far_rectangle
  (H : Host) (w : RectLightWrapper) :
  List.length (FrustumPoints w) = 8%nat ->
  finite_vector (pt (CalculateFrustumPoints H w) 4) ->
  finite_vector (RL.GetRightVector (RectLight w)) ->
  finite_vector (RL.GetUpVector (RectLight w)) ->
  finite (RL.SourceWidth (RectLight w)) ->
  finite (RL.SourceHeight (RectLight w)) ->
  finite (fmul (RL.BarnDoorLength (RectLight w))
            (Sin H (fmul (RL.BarnDoorAngle (RectLight w))
                      (fdiv PI (Fin 180))))) ->
  let w' := CalculateFrustumPoints H w in
  let flare :=
    fmul (RL.BarnDoorLength (RectLight w))
      (Sin H (fmul (RL.BarnDoorAngle (RectLight w)) (fdiv PI (Fin 180)))) in
  let across :=
    vscale (RL.GetRightVector (RectLight w))
      (fadd (fmul (Fin 2) flare) (RL.SourceWidth (RectLight w))) in
  let upward :=
    vscale (RL.GetUpVector (RectLight w))
      (fadd (fmul (Fin 2) flare) (RL.SourceHeight (RectLight w))) in
  vsub (pt w' 5) (pt w' 4) = across
  /\ vsub (pt w' 6) (pt w' 7) = across
  /\ vsub (pt w' 5) (pt w' 6) = upward
  /\ vsub (pt w' 4) (pt w' 7) = upward.
Proof.
  destruct w as [L fp bp]. cbn [RectLight FrustumPoints].
  intros (a0 & a1 & a2 & a3 & a4 & a5 & a6 & a7 & ->)%list_of_8.
  cbn [CalculateFrustumPoints set_pt pt TArray_set nth FrustumPoints
         BoundingPlanes RectLight].
  intros Hfar Hright Hup Hwidth Hheight Hflare.
  match type of Hfar with
  | finite_vector ?e => remember e as P4 eqn:E4; clear E4
  end.
  match type of Hflare with
  | finite ?e => remember e as flare eqn:Eflare; clear Eflare
  end.
  finite_components. rewrite_components.
  repeat split; same_rational.
Qed.

(** X24 at the rect light of the scene. *)
Lemma CalculateFrustumPoints_far_rectangle_witness :
  let w' :=
    CalculateFrustumPoints Scenes.open_air
      (RectLightWrapper_new Scenes.rect) in
  vsub (pt w' 4) (pt w' 7)
  = vscale (Scenes.V 0 0 1)
      (fadd (fmul (Fin 2)
               (fmul (Fin 300)
                  (RefHost.Sin (fmul (Fin 20) (fdiv PI (Fin 180))))))
         (Fin 100)).
Proof.
  intro w'.
  refine (proj2 (proj2 (proj2 (CalculateFrustumPoints_far_rectangle
                                 Scenes.open_air
                                 (RectLightWrapper_new Scenes.rect)
                                 eq_refl _ _ _ _ _ _)))).
  - repeat split; eexists; vm_compute; reflexivity.
  - repeat split; eexists; reflexivity.
  - repeat split; eexists; reflexivity.
  - eexists; reflexivity.
  - eexists; reflexivity.
  - eexists; vm_compute; reflexivity.
Defined.
